(** * creds-installer: the installer and the credential fetcher it generates

    A shallow embedding of [src/creds-installer.py].  The file has two
    programs in it: the installer proper ([create_temp_creds_script],
    [update_aws_credentials_config], [main]) and the text of a second
    program, the credential fetcher, which the installer writes to
    [~/.aws/get_temp_creds.py] ([get_cached_credentials],
    [fetch_new_credentials] and its [__main__] block).

    Library calls are modelled by what they do to the values the program
    sees: [json], [datetime], [requests], [configparser] and [pathlib].
    Files are kept up to parsing: the cache file as the JSON document it
    decodes to, the credentials file as its sections and option lines.
    The clock is a count of microseconds, a response is a status and a
    body, and the file system is the three paths under [~/.aws] the
    installer touches, all of them writable. *)

From Stdlib Require Import ZArith NArith List Bool Lia.
From Stdlib Require Import Strings.String Strings.Ascii.
From Stdlib Require Import Numbers.DecimalString.
Import ListNotations.

Local Open Scope string_scope.
Local Open Scope Z_scope.
Local Set Warnings "-register-all".

(** ** Characters and text *)

Module Text.

(** The double quote and the line feed, which a string literal of this
    file does not spell. *)
Definition dq : ascii := "034"%char.
Definition lf : ascii := "010"%char.
Definition q : string := String dq EmptyString.
Definition nl : string := String lf EmptyString.

Definition Z_to_string (x : Z) : string :=
  NilEmpty.string_of_int (Z.to_int x).

(** [starts_with p s]: Python's [s.startswith(p)]. *)
Fixpoint starts_with (p s : string) : bool :=
  match p, s with
  | EmptyString, _ => true
  | String _ _, EmptyString => false
  | String a p', String b s' => Ascii.eqb a b && starts_with p' s'
  end.

(** [contains p s]: Python's [p in s]. *)
Fixpoint contains (p s : string) : bool :=
  starts_with p s ||
  match s with
  | EmptyString => false
  | String _ s' => contains p s'
  end.

(** [mem_char c s]: the character [c] occurs in [s]. *)
Fixpoint mem_char (c : ascii) (s : string) : bool :=
  match s with
  | EmptyString => false
  | String b s' => Ascii.eqb c b || mem_char c s'
  end.

(** Python's [s.replace(old, new)] for a non-empty [old]: the occurrences
    of [old] are found from left to right and do not overlap; the text put
    in is not scanned again.  [skip] counts the characters of a match that
    are still to be dropped. *)
Fixpoint replace_from (old new : string) (skip : nat) (s : string) : string :=
  match s with
  | EmptyString => EmptyString
  | String c s' =>
      match skip with
      | S k => replace_from old new k s'
      | O =>
          if starts_with old s
          then new ++ replace_from old new (Nat.pred (String.length old)) s'
          else String c (replace_from old new O s')
      end
  end.

Definition replace (old new s : string) : string := replace_from old new O s.

(** [s[n:]]. *)
Fixpoint drop (n : nat) (s : string) : string :=
  match n, s with
  | O, _ => s
  | S _, EmptyString => EmptyString
  | S k, String _ s' => drop k s'
  end.

(** [s.partition(sep)[0]] and [s.partition(sep)[2]]: what stands before
    and after the first occurrence of [sep]. *)
Fixpoint before (sep s : string) : string :=
  match s with
  | EmptyString => EmptyString
  | String c s' => if starts_with sep s then EmptyString else String c (before sep s')
  end.

Fixpoint after (sep s : string) : string :=
  match s with
  | EmptyString => EmptyString
  | String c s' =>
      if starts_with sep s then drop (String.length sep) s else after sep s'
  end.

(** [differs p s]: [p] and [s] disagree at a position both have. *)
Fixpoint differs (p s : string) : bool :=
  match p, s with
  | String a p', String b s' => negb (Ascii.eqb a b) || differs p' s'
  | _, _ => false
  end.

(** [clear p s]: no occurrence of [p] starts inside [s], whatever text
    follows [s]. *)
Fixpoint clear (p s : string) : bool :=
  match s with
  | EmptyString => true
  | String _ s' => differs p s && clear p s'
  end.

End Text.

(** ** JSON values, as [json.load] and [response.json()] hand them over *)

Module Json.
Import Text.

(** A decoded JSON document.  An object is a Python [dict]: it keeps the
    order in which its keys were put in.  Numbers are the integers (no
    field the program looks at is a float). *)
Inductive json : Type :=
| JNull
| JBool (b : bool)
| JInt (n : Z)
| JStr (s : string)
| JArr (items : list json)
| JObj (fields : list (string * json)).

(** [lookup k fields]: the value under key [k], if any. *)
Fixpoint lookup (k : string) (fields : list (string * json)) : option json :=
  match fields with
  | [] => None
  | (k', v) :: rest => if String.eqb k k' then Some v else lookup k rest
  end.

(** [d[k] = v] on a dict: an existing key keeps its place, a new key goes
    last. *)
Fixpoint store (k : string) (v : json) (fields : list (string * json))
  : list (string * json) :=
  match fields with
  | [] => [(k, v)]
  | (k', v') :: rest =>
      if String.eqb k k' then (k', v) :: rest else (k', v') :: store k v rest
  end.

(** Python truth value of a decoded document, as [or] tests it. *)
Definition truthy (j : json) : bool :=
  match j with
  | JNull => false
  | JBool b => b
  | JInt n => negb (n =? 0)
  | JStr s => negb (String.eqb s "")
  | JArr l => match l with [] => false | _ => true end
  | JObj l => match l with [] => false | _ => true end
  end.

Definition hex_digit (n : N) : ascii :=
  match n with
  | 0%N => "0" | 1%N => "1" | 2%N => "2" | 3%N => "3" | 4%N => "4"
  | 5%N => "5" | 6%N => "6" | 7%N => "7" | 8%N => "8" | 9%N => "9"
  | 10%N => "a" | 11%N => "b" | 12%N => "c" | 13%N => "d" | 14%N => "e"
  | _ => "f"
  end%char.

(** One character of a string literal, [ensure_ascii] on: the quote and
    the backslash are escaped, the control characters have their short
    form or a [\u00XX], everything outside space..tilde is a [\u00XX].
    A character is a code point below 256. *)
Definition escape_char (c : ascii) : string :=
  let n := N_of_ascii c in
  if (n =? 34)%N then "\" ++ q
  else if (n =? 92)%N then "\\"
  else if (n =? 10)%N then "\n"
  else if (n =? 13)%N then "\r"
  else if (n =? 9)%N then "\t"
  else if (n =? 8)%N then "\b"
  else if (n =? 12)%N then "\f"
  else if ((32 <=? n) && (n <=? 126))%N then String c EmptyString
  else "\u00" ++ String (hex_digit (n / 16)) (String (hex_digit (n mod 16)) EmptyString).

Fixpoint escape (s : string) : string :=
  match s with
  | EmptyString => EmptyString
  | String c s' => escape_char c ++ escape s'
  end.

Definition quote (s : string) : string := q ++ escape s ++ q.

(** [json.dumps(j)] with the default separators and no indent. *)
Fixpoint dumps (j : json) : string :=
  match j with
  | JNull => "null"
  | JBool true => "true"
  | JBool false => "false"
  | JInt n => Z_to_string n
  | JStr s => quote s
  | JArr l => "[" ++ String.concat ", " (map dumps l) ++ "]"
  | JObj l =>
      "{" ++ String.concat ", "
               (map (fun kv => quote (fst kv) ++ ": " ++ dumps (snd kv)) l)
          ++ "}"
  end.

End Json.

(** ** [datetime] values *)

Module Datetime.
Import Text.

(** A [datetime]: the wall-clock fields, and the offset from UTC in
    seconds when the value is aware ([None] for a naive one). *)
Record datetime : Type := mkDatetime {
  year : Z;
  month : Z;
  day : Z;
  hour : Z;
  minute : Z;
  second : Z;
  microsecond : Z;
  tzinfo : option Z
}.

(** [timezone.utc]. *)
Definition utc : option Z := Some 0.

(** [dt.replace(tzinfo=tz)]: the zone is swapped, the fields stay (it is
    [astimezone] that would move the fields to keep the instant). *)
Definition replace_tzinfo (dt : datetime) (tz : option Z) : datetime :=
  mkDatetime (year dt) (month dt) (day dt) (hour dt) (minute dt) (second dt)
             (microsecond dt) tz.

Definition is_leap (y : Z) : bool :=
  (y mod 4 =? 0) && (negb (y mod 100 =? 0) || (y mod 400 =? 0)).

Definition days_before_year (y : Z) : Z :=
  let y1 := y - 1 in y1 * 365 + y1 / 4 - y1 / 100 + y1 / 400.

Definition days_in_month (y m : Z) : Z :=
  if m =? 2 then (if is_leap y then 29 else 28)
  else if (m =? 4) || (m =? 6) || (m =? 9) || (m =? 11) then 30
  else 31.

Definition days_before_month (y m : Z) : Z :=
  match m with
  | 1 => 0 | 2 => 31 | 3 => 59 | 4 => 90 | 5 => 120 | 6 => 151
  | 7 => 181 | 8 => 212 | 9 => 243 | 10 => 273 | 11 => 304 | _ => 334
  end + (if (2 <? m) && is_leap y then 1 else 0).

(** The proleptic Gregorian ordinal: 0001-01-01 is day 1. *)
Definition ymd2ord (y m d : Z) : Z :=
  days_before_year y + days_before_month y m + d.

(** The ranges the [datetime] constructor enforces. *)
Definition valid (dt : datetime) : bool :=
  (1 <=? year dt) && (year dt <=? 9999) &&
  (1 <=? month dt) && (month dt <=? 12) &&
  (1 <=? day dt) && (day dt <=? days_in_month (year dt) (month dt)) &&
  (0 <=? hour dt) && (hour dt <=? 23) &&
  (0 <=? minute dt) && (minute dt <=? 59) &&
  (0 <=? second dt) && (second dt <=? 59) &&
  (0 <=? microsecond dt) && (microsecond dt <=? 999999) &&
  match tzinfo dt with
  | None => true
  | Some off => (-86400 <? off) && (off <? 86400)
  end.

(** Microseconds of the wall clock since 0001-01-01T00:00:00. *)
Definition wall_micros (dt : datetime) : Z :=
  (((ymd2ord (year dt) (month dt) (day dt) - 1) * 86400
    + hour dt * 3600 + minute dt * 60 + second dt) * 1000000)
  + microsecond dt.

(** The instant of an aware value, in microseconds since
    0001-01-01T00:00:00 UTC; a naive value denotes none. *)
Definition instant (dt : datetime) : option Z :=
  match tzinfo dt with
  | None => None
  | Some off => Some (wall_micros dt - off * 1000000)
  end.

(** A value in UTC: aware with offset zero, or naive; the records the
    fetcher writes carry the former. *)
Definition in_utc (dt : datetime) : Prop :=
  tzinfo dt = None \/ tzinfo dt = utc.

(** The instant a value denotes, a naive one being read as UTC, in
    microseconds since 0001-01-01T00:00:00 UTC: the wall clock less the
    offset. *)
Definition utc_instant (dt : datetime) : Z :=
  wall_micros dt
  - match tzinfo dt with Some off => off | None => 0 end * 1000000.

(** [timedelta(minutes=5)], in microseconds. *)
Definition minutes (n : Z) : Z := n * 60 * 1000000.

(** [dt - td] for an aware [dt] in UTC and a positive [td].  The result
    is a [datetime] of the same zone; it is kept here as its count of
    microseconds, which is all the comparison that follows looks at.
    [None] is [OverflowError]: the result would fall before year 1
    (taking a positive [td] off a valid value cannot pass year 9999). *)
Definition sub_timedelta (dt : datetime) (td : Z) : option Z :=
  let m := wall_micros dt - td in
  if 0 <=? m then Some m else None.

(** *** [isoformat] *)

Definition digit (n : Z) : ascii := ascii_of_N (48 + Z.to_N n).

(** [%02d], [%04d] and [%06d] of a number that fits the width. *)
Definition dec2 (n : Z) : string :=
  String (digit (n / 10)) (String (digit (n mod 10)) EmptyString).
Definition dec4 (n : Z) : string := dec2 (n / 100) ++ dec2 (n mod 100).
Definition dec6 (n : Z) : string :=
  dec2 (n / 10000) ++ dec2 ((n / 100) mod 100) ++ dec2 (n mod 100).

(** [_format_offset]: sign, hours and minutes, and the seconds only when
    there are some. *)
Definition format_offset (tz : option Z) : string :=
  match tz with
  | None => ""
  | Some off =>
      let a := Z.abs off in
      (if off <? 0 then "-" else "+")
        ++ dec2 (a / 3600) ++ ":" ++ dec2 ((a mod 3600) / 60)
        ++ (if (a mod 60) =? 0 then "" else ":" ++ dec2 (a mod 60))
  end.

(** [dt.isoformat()]: [YYYY-MM-DDTHH:MM:SS], the microseconds when they
    are not zero, then the offset. *)
Definition isoformat (dt : datetime) : string :=
  dec4 (year dt) ++ "-" ++ dec2 (month dt) ++ "-" ++ dec2 (day dt) ++ "T"
    ++ dec2 (hour dt) ++ ":" ++ dec2 (minute dt) ++ ":" ++ dec2 (second dt)
    ++ (if microsecond dt =? 0 then "" else "." ++ dec6 (microsecond dt))
    ++ format_offset (tzinfo dt).

(** *** [fromisoformat]

    Which strings [datetime.fromisoformat] reads depends on the Python
    that runs the fetcher, so the fetcher below takes the parser as a
    parameter.  [None] is [ValueError]. *)
Class IsoParser : Type := fromisoformat : string -> option datetime.

(** What every version grants: a value it returns passed the constructor,
    and what [isoformat] prints for a value in UTC is read back as that
    value. *)
Class IsoParserLaws (P : IsoParser) : Prop := {
  fromisoformat_valid :
    forall s d, fromisoformat s = Some d -> valid d = true;
  fromisoformat_isoformat :
    forall d, valid d = true -> tzinfo d = utc ->
              fromisoformat (isoformat d) = Some d
}.

(** A reference parser: the strings [isoformat] prints (a date alone, or
    date, one separator character, [HH:MM:SS], optional [.ffffff],
    optional [+HH:MM] or [-HH:MM]), which every version reads. *)
Definition digit_val (c : ascii) : option Z :=
  let n := N_of_ascii c in
  if ((48 <=? n) && (n <=? 57))%N then Some (Z.of_N n - 48) else None.

Definition read2 (s : string) : option (Z * string) :=
  match s with
  | String a (String b rest) =>
      match digit_val a, digit_val b with
      | Some x, Some y => Some (10 * x + y, rest)
      | _, _ => None
      end
  | _ => None
  end.

Definition expect (c : ascii) (s : string) : option string :=
  match s with
  | String a rest => if Ascii.eqb a c then Some rest else None
  | EmptyString => None
  end.

Local Notation "' p <- a ;; b" :=
  (match a with Some p => b | None => None end)
  (at level 61, p pattern, a at next level, right associativity).

Definition read4 (s : string) : option (Z * string) :=
  '(a, s1) <- read2 s ;; '(b, s2) <- read2 s1 ;; Some (a * 100 + b, s2).

Definition read6 (s : string) : option (Z * string) :=
  '(a, s1) <- read2 s ;; '(b, s2) <- read2 s1 ;; '(c, s3) <- read2 s2 ;;
  Some (a * 10000 + b * 100 + c, s3).

Definition read_date (s : string) : option (Z * Z * Z * string) :=
  '(y, s1) <- read4 s ;; 's2 <- expect "-" s1 ;;
  '(m, s3) <- read2 s2 ;; 's4 <- expect "-" s3 ;;
  '(d, s5) <- read2 s4 ;; Some (y, m, d, s5).

Definition read_fraction (s : string) : option (Z * string) :=
  match s with
  | String "." s1 => read6 s1
  | _ => Some (0, s)
  end.

Definition read_time (s : string) : option (Z * Z * Z * Z * string) :=
  '(h, s1) <- read2 s ;; 's2 <- expect ":" s1 ;;
  '(mi, s3) <- read2 s2 ;; 's4 <- expect ":" s3 ;;
  '(sec, s5) <- read2 s4 ;; '(us, s6) <- read_fraction s5 ;;
  Some (h, mi, sec, us, s6).

Definition read_offset (s : string) : option (option Z) :=
  match s with
  | EmptyString => Some None
  | String c s1 =>
      'sign <- (if Ascii.eqb c "+" then Some 1
                else if Ascii.eqb c "-" then Some (-1) else None) ;;
      '(h, s2) <- read2 s1 ;; 's3 <- expect ":" s2 ;;
      '(mi, s4) <- read2 s3 ;;
      match s4 with
      | EmptyString => Some (Some (sign * (h * 3600 + mi * 60)))
      | String _ _ => None
      end
  end.

Definition checked (dt : datetime) : option datetime :=
  if valid dt then Some dt else None.

Definition fromisoformat_core (s : string) : option datetime :=
  '(y, m, d, s1) <- read_date s ;;
  match s1 with
  | EmptyString => checked (mkDatetime y m d 0 0 0 0 None)
  | String _ s2 =>
      '(h, mi, sec, us, s3) <- read_time s2 ;;
      'tz <- read_offset s3 ;;
      checked (mkDatetime y m d h mi sec us tz)
  end.

End Datetime.

(** ** Running Python: values, exceptions and [exit]

    Both programs are straight-line code over some state (files, what was
    printed), inside which an exception or a [sys.exit] cuts the rest
    short.  [S] is the state, [E] the exceptions of the program. *)

Module Prog.

(** How a piece of code ends: with a value, with an exception travelling
    up, or with [exit(code)] ([SystemExit], which no [except Exception]
    and no [except RequestException] catches). *)
Inductive result (E A : Type) : Type :=
| Return (a : A)
| Raise (e : E)
| SystemExit (code : Z).
Arguments Return {E A} a.
Arguments Raise {E A} e.
Arguments SystemExit {E A} code.

Definition M (S E A : Type) : Type := S -> result E A * S.

Section Monad.
Context {S E : Type}.

Definition ret {A} (a : A) : M S E A := fun st => (Return a, st).
Definition raise {A} (e : E) : M S E A := fun st => (Raise e, st).
Definition exit {A} (code : Z) : M S E A := fun st => (SystemExit code, st).

Definition bind {A B} (m : M S E A) (k : A -> M S E B) : M S E B :=
  fun st =>
    match m st with
    | (Return a, st') => k a st'
    | (Raise e, st') => (Raise e, st')
    | (SystemExit c, st') => (SystemExit c, st')
    end.

(** [try: body except <the exceptions caught>: handler]; the handler gets
    the exception. *)
Definition try_except {A} (caught : E -> bool)
           (body : M S E A) (handler : E -> M S E A) : M S E A :=
  fun st =>
    match body st with
    | (Raise e, st') => if caught e then handler e st' else (Raise e, st')
    | other => other
    end.

End Monad.

Module Notations.
Notation "x <- m ;; k" := (bind m (fun x => k))
  (at level 61, m at next level, right associativity).
Notation "m ;;; k" := (bind m (fun _ => k))
  (at level 61, right associativity).
End Notations.

End Prog.

(** ** The generated fetcher, [~/.aws/get_temp_creds.py] *)

Module Fetcher.
Import Text Json Datetime.
Import Prog Prog.Notations.

(** The exceptions the script can meet.  [RequestException] stands for
    [requests.RequestException] and all its subclasses, the only ones the
    script catches. *)
Inductive exn : Type :=
| JSONDecodeError
| AttributeError
| TypeError
| KeyError
| ValueError
| OverflowError
| RequestException.

(** What [CACHE_FILE] holds, up to JSON decoding: a text [json.load]
    rejects, or a text it decodes to a document ([json.dump] writes such
    a text). *)
Inductive content : Type :=
| Garbled (text : string)
| Document (j : json).

(** One call of [requests.get]. *)
Record request : Type := mkRequest {
  url : string;
  headers : list (string * string);
  timeout : Z
}.

(** What comes back: no response at all (connection error, timeout), or
    a response with its status and its body, [None] when the body is not
    JSON. *)
Inductive reply : Type :=
| Unreachable
| Response (status : Z) (body : option json).

(** What one run can change or produce: the cache file, the lines
    printed on standard output (oldest first), the requests sent. *)
Record state : Type := mkState {
  cache_file : option content;
  stdout : list string;
  sent : list request
}.

Definition M (A : Type) : Type := Prog.M state exn A.

(** [except requests.RequestException]. *)
Definition is_request_exception (e : exn) : bool :=
  match e with RequestException => true | _ => false end.

Definition print (line : string) : M unit :=
  fun st => (Return tt, mkState (cache_file st) (stdout st ++ [line]) (sent st)).

(** [with open(CACHE_FILE, "w") as f: json.dump(j, f)]. *)
Definition dump_cache (j : json) : M unit :=
  fun st => (Return tt, mkState (Some (Document j)) (stdout st) (sent st)).

(** [with open(CACHE_FILE, "r") as f: json.load(f)], the file being
    there. *)
Definition load_cache (c : content) : M json :=
  match c with
  | Garbled _ => raise JSONDecodeError
  | Document j => ret j
  end.

(** [data.get(k)]: a method of dicts only; a missing key gives [None]. *)
Definition dict_get (data : json) (k : string) : M json :=
  match data with
  | JObj fields =>
      match lookup k fields with
      | Some v => ret v
      | None => ret JNull
      end
  | _ => raise AttributeError
  end.

(** [credentials[k]]: [KeyError] on a dict without [k]; the other
    documents take no string index. *)
Definition getitem (data : json) (k : string) : M json :=
  match data with
  | JObj fields =>
      match lookup k fields with
      | Some v => ret v
      | None => raise KeyError
      end
  | _ => raise TypeError
  end.

(** [credentials[k] = v], on what [getitem] accepted. *)
Definition setitem (data : json) (k : string) (v : json) : json :=
  match data with
  | JObj fields => JObj (store k v fields)
  | other => other
  end.

Definition EXPIRATION_THRESHOLD : Z := minutes 5.

Definition error_payload : json :=
  JObj [("error", JStr "Failed to fetch credentials")].

Section Script.

Context {P : IsoParser}.

(** The two constants the installer writes into the script. *)
Variable API_URL : string.
Variable API_KEY : string.

(** [datetime.fromisoformat(x)]: [TypeError] unless [x] is a [str],
    [ValueError] when it does not parse. *)
Definition parse_iso (x : json) : M datetime :=
  match x with
  | JStr s =>
      match fromisoformat s with
      | Some dt => ret dt
      | None => raise ValueError
      end
  | _ => raise TypeError
  end.

(** [now] is the reading of [datetime.now(timezone.utc)], in
    microseconds since 0001-01-01T00:00:00 UTC. *)
Definition get_cached_credentials (now : N) : M (option json) :=
  fun st =>
    match cache_file st with
    | None => ret None st
    | Some c =>
        (data <- load_cache c ;;
         e <- dict_get data "Expiration" ;;
         dt <- parse_iso e ;;
         let expiration_time := replace_tzinfo dt utc in
         match sub_timedelta expiration_time EXPIRATION_THRESHOLD with
         | None => raise OverflowError
         | Some limit =>
             if Z.of_N now <? limit then ret (Some data) else ret None
         end) st
    end.

(** [requests.get(API_URL, headers={"api-key": API_KEY}, timeout=5)]. *)
Definition requests_get (server : reply) : M reply :=
  fun st =>
    let r := mkRequest API_URL [("api-key", API_KEY)] 5 in
    let st' := mkState (cache_file st) (stdout st) (sent st ++ [r]) in
    match server with
    | Unreachable => (Raise RequestException, st')
    | Response _ _ => (Return server, st')
    end.

(** [response.raise_for_status()]: [HTTPError] for a status from 400 to
    599, nothing otherwise. *)
Definition raise_for_status (r : reply) : M unit :=
  match r with
  | Response status _ =>
      if (400 <=? status) && (status <? 600) then raise RequestException
      else ret tt
  | Unreachable => raise RequestException
  end.

(** [response.json()]: [requests.JSONDecodeError], a
    [RequestException] since requests 2.27, when the body is not JSON. *)
Definition response_json (r : reply) : M json :=
  match r with
  | Response _ (Some j) => ret j
  | _ => raise RequestException
  end.

Definition fetch_new_credentials (server : reply) : M json :=
  try_except is_request_exception
    (response <- requests_get server ;;
     raise_for_status response ;;;
     credentials <- response_json response ;;
     e <- getitem credentials "Expiration" ;;
     dt <- parse_iso e ;;
     let credentials' :=
       setitem credentials "Expiration"
               (JStr (isoformat (replace_tzinfo dt utc))) in
     dump_cache credentials' ;;;
     ret credentials')
    (fun e => print (dumps error_payload) ;;; exit 1).

(** [get_cached_credentials() or fetch_new_credentials()]. *)
Definition cached_or_fetch (now : N) (server : reply) : M json :=
  cached <- get_cached_credentials now ;;
  match cached with
  | Some data => if truthy data then ret data else fetch_new_credentials server
  | None => fetch_new_credentials server
  end.

Definition main (now : N) (server : reply) : M unit :=
  credentials <- cached_or_fetch now server ;;
  print (dumps credentials).

(** One run of the script as a process: what the world looks like after,
    the exit status, and the exception the interpreter reports on
    standard error (with a traceback) when one went uncaught. *)
Record outcome : Type := mkOutcome {
  final : state;
  exit_code : Z;
  traceback : option exn
}.

Definition run (cache : option content) (now : N) (server : reply) : outcome :=
  match main now server (mkState cache [] []) with
  | (Return _, st) => mkOutcome st 0 None
  | (Raise e, st) => mkOutcome st 1 (Some e)
  | (SystemExit c, st) => mkOutcome st c None
  end.

(** The one request a run may send. *)
Definition the_request : request := mkRequest API_URL [("api-key", API_KEY)] 5.

(** The expiry a record carries, as the script reads it: its
    [Expiration] parsed and taken as a wall clock in UTC, in
    microseconds since 0001-01-01T00:00:00. *)
Definition expiry (record : json) : option Z :=
  match record with
  | JObj fields =>
      match lookup "Expiration" fields with
      | Some (JStr s) => option_map wall_micros (fromisoformat s)
      | _ => None
      end
  | _ => None
  end.

(** The states in which the cache does not serve: no cache file, or one
    whose expiry less five minutes is representable and not after the
    current time. *)
Inductive stale : option content -> N -> Prop :=
| stale_absent : forall now, stale None now
| stale_expired : forall fields s dt now,
    lookup "Expiration" fields = Some (JStr s) ->
    fromisoformat s = Some dt ->
    minutes 5 <= wall_micros dt ->
    wall_micros dt - minutes 5 <= Z.of_N now ->
    stale (Some (Document (JObj fields))) now.


(** The replies that count as a failed request: none at all, or a status
    from 400 to 599. *)
Inductive failed : reply -> Prop :=
| failed_unreachable : failed Unreachable
| failed_status : forall status body,
    400 <= status < 600 -> failed (Response status body).

(** The cache files the script cannot read, each with the exception it
    dies of: a text that is not JSON, a document that is no object, an
    object with no [Expiration], with one that is no string, with one
    that does not parse. *)
Inductive corrupt : content -> exn -> Prop :=
| corrupt_text : forall text, corrupt (Garbled text) JSONDecodeError
| corrupt_shape : forall j,
    (forall fields, j <> JObj fields) -> corrupt (Document j) AttributeError
| corrupt_missing : forall fields,
    lookup "Expiration" fields = None ->
    corrupt (Document (JObj fields)) TypeError
| corrupt_type : forall fields v,
    lookup "Expiration" fields = Some v -> (forall s, v <> JStr s) ->
    corrupt (Document (JObj fields)) TypeError
| corrupt_value : forall fields s,
    lookup "Expiration" fields = Some (JStr s) -> fromisoformat s = None ->
    corrupt (Document (JObj fields)) ValueError.

End Script.

End Fetcher.

(** ** [configparser], as much of it as the installer calls *)

Module ConfigParser.
Import Text.

(** What an INI file holds, up to parsing: a text no section header opens
    or with a line that is no option ([Malformed]), or its sections in
    the order of the file, each with its header and its option lines. *)
Inductive ini : Type :=
| Malformed
| Sections (raw : list (string * list (string * string))).

(** A [ConfigParser] in memory: the defaults and the sections, each an
    ordered dict of options. *)
Record config : Type := mkConfig {
  defaults : list (string * string);
  sections : list (string * list (string * string))
}.

(** The errors of the module the installer can meet; the last one is
    the [ValueError] of [before_set]. *)
Inductive error : Type :=
| ParsingError
| DuplicateSectionError (name : string)
| DuplicateOptionError (name option : string)
| InvalidInterpolation.

Definition DEFAULT : string := "DEFAULT".
Definition empty : config := mkConfig [] [].

(** [optionxform], which is [str.lower] (on the letters A to Z). *)
Definition lower_char (c : ascii) : ascii :=
  let n := N_of_ascii c in
  if ((65 <=? n) && (n <=? 90))%N then ascii_of_N (n + 32) else c.

Fixpoint optionxform (s : string) : string :=
  match s with
  | EmptyString => EmptyString
  | String c s' => String (lower_char c) (optionxform s')
  end.

Definition has_key {A} (k : string) (l : list (string * A)) : bool :=
  existsb (fun kv => String.eqb k (fst kv)) l.

(** [d[k] = v] on an ordered dict. *)
Fixpoint put {A} (k : string) (v : A) (l : list (string * A)) : list (string * A) :=
  match l with
  | [] => [(k, v)]
  | (k', v') :: rest =>
      if String.eqb k k' then (k', v) :: rest else (k', v') :: put k v rest
  end.

(** The option lines of one section body, strict mode: a name that comes
    twice (after [optionxform]) is a [DuplicateOptionError]. *)
Fixpoint read_options (sect : string) (lines acc : list (string * string))
  : error + list (string * string) :=
  match lines with
  | [] => inr acc
  | (k, v) :: rest =>
      let k' := optionxform k in
      if has_key k' acc then inl (DuplicateOptionError sect k')
      else read_options sect rest (acc ++ [(k', v)])
  end.

(** [config.read] on a fresh parser, strict mode: a header seen before is
    a [DuplicateSectionError], except [DEFAULT], whose bodies add up. *)
Fixpoint read_sections (raw : list (string * list (string * string)))
         (cfg : config) : error + config :=
  match raw with
  | [] => inr cfg
  | (name, lines) :: rest =>
      if String.eqb name DEFAULT then
        match read_options name lines (defaults cfg) with
        | inl e => inl e
        | inr d => read_sections rest (mkConfig d (sections cfg))
        end
      else if has_key name (sections cfg) then inl (DuplicateSectionError name)
      else
        match read_options name lines [] with
        | inl e => inl e
        | inr opts =>
            read_sections rest (mkConfig (defaults cfg) (sections cfg ++ [(name, opts)]))
        end
  end.

Definition read (file : ini) : error + config :=
  match file with
  | Malformed => inl ParsingError
  | Sections raw => read_sections raw empty
  end.

(** [name in config]. *)
Definition contains_section (name : string) (cfg : config) : bool :=
  String.eqb name DEFAULT || has_key name (sections cfg).

(** [config.add_section(name)], for a name not in [config]. *)
Definition add_section (name : string) (cfg : config) : config :=
  mkConfig (defaults cfg) (sections cfg ++ [(name, [])]).

(** [BasicInterpolation.before_set]: with every [%%] and every
    [%(name)s] taken out, no [%] may be left. *)
Fixpoint key_tail (s : string) (seen : nat) : option nat :=
  match s with
  | EmptyString => None
  | String c s' =>
      if Ascii.eqb c ")" then
        match seen, s' with
        | S _, String "s" _ => Some (seen + 2)%nat
        | _, _ => None
        end
      else key_tail s' (S seen)
  end.

(** Length of the match of [%\(([^)]+)\)s] at the head of [s]. *)
Definition key_match (s : string) : option nat :=
  match s with
  | String "%" (String "(" s') =>
      match key_tail s' O with
      | Some n => Some (n + 2)%nat
      | None => None
      end
  | _ => None
  end.

Fixpoint strip_keys (skip : nat) (s : string) : string :=
  match s with
  | EmptyString => EmptyString
  | String c s' =>
      match skip with
      | S k => strip_keys k s'
      | O =>
          match key_match s with
          | Some n => strip_keys (Nat.pred n) s'
          | None => String c (strip_keys O s')
          end
      end
  end.

Definition valid_interpolation (value : string) : bool :=
  negb (mem_char "%" (strip_keys O (replace "%%" "" value))).

(** [sectdict[optionxform(option)] = value], in the section called
    [section]. *)
Definition set_option (section option value : string)
           (s : string * list (string * string))
  : string * list (string * string) :=
  if String.eqb section (fst s)
  then (fst s, put (optionxform option) value (snd s)) else s.

(** [config.set(section, option, value)], the section being there. *)
Definition set (section option value : string) (cfg : config) : error + config :=
  if valid_interpolation value then
    inr (mkConfig (defaults cfg)
                  (map (set_option section option value) (sections cfg)))
  else inl InvalidInterpolation.

(** [config.write(f)]: the defaults first when there are some, then the
    sections. *)
Definition write (cfg : config) : ini :=
  Sections (match defaults cfg with
            | [] => sections cfg
            | d => (DEFAULT, d) :: sections cfg
            end).

(** The entries of an ordered dict under the key [k]. *)
Definition named {A} (k : string) (l : list (string * A)) : list (string * A) :=
  filter (fun kv => String.eqb k (fst kv)) l.

Definition keys {A} (l : list (string * A)) : list string := map fst l.

(** What strict parsing grants of a section body: no option twice, every
    name through [optionxform]. *)
Definition options_ok (opts : list (string * string)) : Prop :=
  NoDup (keys opts) /\ Forall (fun k => optionxform k = k) (keys opts).

(** And of a whole parser: no section twice, none called [DEFAULT]. *)
Record well_formed (cfg : config) : Prop := mkWellFormed {
  wf_defaults : options_ok (defaults cfg);
  wf_names : NoDup (keys (sections cfg));
  wf_no_default : ~ In DEFAULT (keys (sections cfg));
  wf_options : Forall (fun s => options_ok (snd s)) (sections cfg)
}.

End ConfigParser.

(** ** The installer *)

Module Installer.
Import Text.
Import Prog Prog.Notations.

(** What the process is started with: the two variables of the
    environment ([None] when unset), the home directory as
    [str(Path.home())], and the permission bits a file gets when [open]
    creates it (0o666 less the umask). *)
Record env : Type := mkEnv {
  AWS_GET_TEMP_CREDS_API_URL : option string;
  AWS_GET_TEMP_CREDS_API_KEY : option string;
  home : string;
  create_mode : Z
}.

(** What stands at a path: nothing, a directory, or a regular file with
    its permission bits and what it holds. *)
Inductive entry (A : Type) : Type :=
| Absent
| Directory
| File (mode : Z) (data : A).
Arguments Absent {A}.
Arguments Directory {A}.
Arguments File {A} mode data.

(** The three paths the installer touches: [~/.aws],
    [~/.aws/get_temp_creds.py] and [~/.aws/credentials]. *)
Record fs : Type := mkFs {
  aws_dir : entry unit;
  script : entry string;
  credentials : entry ConfigParser.ini
}.

Inductive exn : Type :=
| FileExistsError (path : string)
| IsADirectoryError (path : string)
| ConfigError (e : ConfigParser.error).

(** A call of [print]: its text, or the line [Setup failed:] with the
    text of the exception caught. *)
Inductive printed : Type :=
| Line (text : string)
| SetupFailed (e : exn).

Record state : Type := mkState {
  files : fs;
  stdout : list printed
}.

Definition M (A : Type) : Type := Prog.M state exn A.

Definition print (text : string) : M unit :=
  fun st => (Return tt, mkState (files st) (stdout st ++ [Line text])).

Definition print_failure (e : exn) : M unit :=
  fun st => (Return tt, mkState (files st) (stdout st ++ [SetupFailed e])).

Definition get_fs : M fs := fun st => (Return (files st), st).
Definition put_fs (f : fs) : M unit :=
  fun st => (Return tt, mkState f (stdout st)).

(** [p / name] on a normalised path. *)
Definition join (p name : string) : string :=
  if String.eqb p "/" then p ++ name else p ++ "/" ++ name.

(** [stat.S_IEXEC], 0o100. *)
Definition S_IEXEC : Z := 64.

Definition API_URL_PLACEHOLDER : string := "API_URL_PLACEHOLDER".
Definition API_KEY_PLACEHOLDER : string := "API_KEY_PLACEHOLDER".

Definition script_template : string :=
  String.concat nl [
    "#!/usr/bin/env python3";
    EmptyString;
    "import os";
    "import json";
    "import requests";
    "from datetime import datetime, timezone, timedelta";
    EmptyString;
    "CACHE_FILE = os.path.expanduser(" ++ q ++ "~/.aws/credentials_cache_python.json" ++ q ++ ")";
    "API_URL = " ++ q ++ "API_URL_PLACEHOLDER" ++ q;
    "API_KEY = " ++ q ++ "API_KEY_PLACEHOLDER" ++ q;
    "EXPIRATION_THRESHOLD = timedelta(minutes=5)  # Refresh if expiring within 5 min";
    EmptyString;
    "def get_cached_credentials():";
    "    " ++ q ++ q ++ q ++ "Reads cached credentials if they exist and are valid." ++ q ++ q ++ q;
    "    if not os.path.exists(CACHE_FILE):";
    "        return None";
    EmptyString;
    "    with open(CACHE_FILE, " ++ q ++ "r" ++ q ++ ") as f:";
    "        data = json.load(f)";
    EmptyString;
    "    expiration_time = datetime.fromisoformat(data.get(" ++ q ++ "Expiration" ++ q ++ ")).replace(tzinfo=timezone.utc)";
    "    current_time = datetime.now(timezone.utc)  # Ensure UTC comparison";
    EmptyString;
    "    if current_time < (expiration_time - EXPIRATION_THRESHOLD):";
    "        return data  # Return valid cached credentials";
    EmptyString;
    "    return None  # Expired credentials";
    EmptyString;
    "def fetch_new_credentials():";
    "    " ++ q ++ q ++ q ++ "Fetches new credentials from the API and saves them to cache." ++ q ++ q ++ q;
    "    try:";
    "        response = requests.get(API_URL, headers={" ++ q ++ "api-key" ++ q ++ ": API_KEY}, timeout=5)";
    "        response.raise_for_status()";
    "        credentials = response.json()";
    EmptyString;
    "        # Ensure Expiration is stored as a proper UTC timestamp";
    "        credentials[" ++ q ++ "Expiration" ++ q ++ "] = datetime.fromisoformat(credentials[" ++ q ++ "Expiration" ++ q ++ "]).replace(tzinfo=timezone.utc).isoformat()";
    EmptyString;
    "        with open(CACHE_FILE, " ++ q ++ "w" ++ q ++ ") as f:";
    "            json.dump(credentials, f)";
    EmptyString;
    "        return credentials";
    "    except requests.RequestException as e:";
    "        print(json.dumps({" ++ q ++ "error" ++ q ++ ": " ++ q ++ "Failed to fetch credentials" ++ q ++ "}))";
    "        exit(1)";
    EmptyString;
    "if __name__ == " ++ q ++ "__main__" ++ q ++ ":";
    "    credentials = get_cached_credentials() or fetch_new_credentials()";
    "    print(json.dumps(credentials))  # AWS CLI reads this output"
  ] ++ nl.

(** The template around its two placeholders. *)
Definition template_head : string := before API_URL_PLACEHOLDER script_template.
Definition template_rest : string := after API_URL_PLACEHOLDER script_template.
Definition template_mid : string := before API_KEY_PLACEHOLDER template_rest.
Definition template_tail : string := after API_KEY_PLACEHOLDER template_rest.

(** The template with [api_url] in the place of the URL placeholder and
    [api_key] in the place of the key placeholder. *)
Definition substituted (api_url api_key : string) : string :=
  template_head ++ api_url ++ template_mid ++ api_key ++ template_tail.

(** [not x] on what [os.getenv] returns: unset and empty are both
    false. *)
Definition falsy (v : option string) : bool :=
  match v with
  | None => true
  | Some s => String.eqb s ""
  end.

Definition value (v : option string) : string :=
  match v with Some s => s | None => "" end.

(** [aws_dir.mkdir(exist_ok=True)]. *)
Definition mkdir_exist_ok (path : string) : M unit :=
  f <- get_fs ;;
  match aws_dir f with
  | Absent => put_fs (mkFs Directory (script f) (credentials f))
  | Directory => ret tt
  | File _ _ => raise (FileExistsError path)
  end.

(** [with open(path, 'w') as f: f.write(data)]: an existing file keeps
    its mode, a new one gets [create_mode]. *)
Definition write_entry {A} (path : string) (create : Z) (old : entry A) (data : A)
  : exn + entry A :=
  match old with
  | Absent => inr (File create data)
  | Directory => inl (IsADirectoryError path)
  | File mode _ => inr (File mode data)
  end.

Definition lift {A} (r : exn + A) : M A :=
  match r with
  | inl e => raise e
  | inr a => ret a
  end.

(** [path.chmod(path.stat().st_mode | stat.S_IEXEC)]. *)
Definition chmod_exec {A} (e : entry A) : entry A :=
  match e with
  | File mode data => File (Z.lor mode S_IEXEC) data
  | other => other
  end.

Definition render (api_url api_key : string) : string :=
  replace API_KEY_PLACEHOLDER api_key
    (replace API_URL_PLACEHOLDER api_url script_template).

Definition create_temp_creds_script (e : env) : M string :=
  let api_url := AWS_GET_TEMP_CREDS_API_URL e in
  let api_key := AWS_GET_TEMP_CREDS_API_KEY e in
  if falsy api_url || falsy api_key then
    print "ERROR: Required environment variables not set!" ;;;
    print "Please set the following environment variables:" ;;;
    print "  export AWS_GET_TEMP_CREDS_API_URL='your-api-url'" ;;;
    print "  export AWS_GET_TEMP_CREDS_API_KEY='your-api-key'" ;;;
    exit 1
  else
    let aws := join (home e) ".aws" in
    mkdir_exist_ok aws ;;;
    let script_path := join aws "get_temp_creds.py" in
    let script_content := render (value api_url) (value api_key) in
    f <- get_fs ;;
    written <- lift (write_entry script_path (create_mode e) (script f) script_content) ;;
    put_fs (mkFs (aws_dir f) written (credentials f)) ;;;
    put_fs (mkFs (aws_dir f) (chmod_exec written) (credentials f)) ;;;
    print ("✓ Created executable script: " ++ script_path) ;;;
    ret script_path.

Definition PROFILE : string := "temp-creds-session".

Definition lift_config {A} (r : ConfigParser.error + A) : M A :=
  match r with
  | inl e => raise (ConfigError e)
  | inr a => ret a
  end.

(** [config = ConfigParser(); if credentials_file.exists():
    config.read(credentials_file)]; [read] skips a path it cannot open. *)
Definition read_existing (c : entry ConfigParser.ini)
  : ConfigParser.error + ConfigParser.config :=
  match c with
  | File _ text => ConfigParser.read text
  | _ => inr ConfigParser.empty
  end.

(** Add the profile section when it is not there, then set its
    [credential_process]. *)
Definition upsert_profile (script_path : string) (config : ConfigParser.config)
  : ConfigParser.error + ConfigParser.config :=
  let config1 :=
    if negb (ConfigParser.contains_section PROFILE config)
    then ConfigParser.add_section PROFILE config else config in
  ConfigParser.set PROFILE "credential_process" script_path config1.

Definition update_aws_credentials_config (e : env) (script_path : string) : M unit :=
  let credentials_file := join (join (home e) ".aws") "credentials" in
  f <- get_fs ;;
  config <- lift_config (read_existing (credentials f)) ;;
  config2 <- lift_config (upsert_profile script_path config) ;;
  written <- lift (write_entry credentials_file (create_mode e) (credentials f)
                               (ConfigParser.write config2)) ;;
  put_fs (mkFs (aws_dir f) (script f) written) ;;;
  print ("✓ Updated AWS credentials file: " ++ credentials_file) ;;;
  print "✓ Added [temp-creds-session] profile with credential_process".

Definition rule (n : nat) : string :=
  String.concat "" (repeat "=" n).

Definition main (e : env) : M unit :=
  print "AWS Temporary Credentials Setup" ;;;
  print (rule 35) ;;;
  try_except (fun _ => true)
    (script_path <- create_temp_creds_script e ;;
     update_aws_credentials_config e script_path ;;;
     print (nl ++ "🎉 Setup completed successfully!") ;;;
     print (nl ++ "You can now use AWS CLI with:") ;;;
     print "  aws --profile temp-creds-session <command>" ;;;
     print (nl ++ "Or set as default profile:") ;;;
     print "  export AWS_PROFILE=temp-creds-session")
    (fun ex => print_failure ex ;;; exit 1).

(** One run of the installer as a process. *)
Record outcome : Type := mkOutcome {
  final : state;
  exit_code : Z
}.

Definition run (e : env) (f : fs) : outcome :=
  match main e (mkState f []) with
  | (Return _, st) => mkOutcome st 0
  | (Raise _, st) => mkOutcome st 1
  | (SystemExit c, st) => mkOutcome st c
  end.

(** The paths of the script and of the credentials file. *)
Definition script_path_of (e : env) : string :=
  join (join (home e) ".aws") "get_temp_creds.py".

(** Owner-execute is bit 6 of the mode. *)
Definition executable (mode : Z) : bool := Z.testbit mode 6.

End Installer.

(** ** Sample worlds, with the reference parser *)

Module Samples.
Import Json Datetime Fetcher.

Definition url : string := "https://api.example.org/creds".
Definition key : string := "s3cr3t".

(** 2026-01-01T00:00:00 UTC, in microseconds since 0001-01-01. *)
Definition new_year_2026 : N := 63902822400000000%N.

Definition record_of (expiration : string) : json :=
  JObj [("AccessKeyId", JStr "AKIAEXAMPLE");
        ("SecretAccessKey", JStr "wJalr");
        ("SessionToken", JStr "tok");
        ("Expiration", JStr expiration)].

Definition fresh_run : option content -> N -> reply -> outcome :=
  run (P := fromisoformat_core) url key.

(** The instant a text denotes, for the reference parser. *)
Definition instant_of (text : string) : option Z :=
  match fromisoformat_core text with
  | Some dt => instant dt
  | None => None
  end.

(** A home directory with no [.aws] in it yet. *)
Definition clean_home : Installer.fs :=
  Installer.mkFs Installer.Absent Installer.Absent Installer.Absent.

(** An environment with both variables set. *)
Definition sample_env : Installer.env :=
  Installer.mkEnv (Some url) (Some key) "/home/u" 420.

(** A home directory in use: an older script, and a credentials file
    with defaults, another profile, and the profile of the installer
    with a region and an older [credential_process]. *)
Definition used_home : Installer.fs :=
  Installer.mkFs Installer.Directory
    (Installer.File 420 "print(1)")
    (Installer.File 384
       (ConfigParser.Sections
          [("DEFAULT", [("output", "json")]);
           ("default", [("aws_access_key_id", "AKIAOLD");
                        ("aws_secret_access_key", "old")]);
           ("temp-creds-session", [("Region", "us-west-2");
                                   ("credential_process", "/old/path")])])).

(** A home directory whose credentials file names a section twice. *)
Definition broken_home : Installer.fs :=
  Installer.mkFs Installer.Directory Installer.Absent
    (Installer.File 384
       (ConfigParser.Sections [("default", []); ("default", [])])).

(** A home directory where [.aws] is a regular file. *)
Definition blocked_home : Installer.fs :=
  Installer.mkFs (Installer.File 420 tt) Installer.Absent Installer.Absent.

End Samples.

(** * Properties of [str.replace] *)

Module TextFacts.
Import Text.

Lemma append_nil (s : string) : (s ++ "")%string = s.
Proof. induction s as [| c s IH]; cbn; [reflexivity | now rewrite IH]. Qed.

Lemma append_assoc (a b c : string) : ((a ++ b) ++ c = a ++ (b ++ c))%string.
Proof. induction a as [| x a IH]; cbn; [reflexivity | now rewrite IH]. Qed.

Lemma starts_with_app (p r : string) : starts_with p (p ++ r) = true.
Proof.
  induction p as [| a p IH]; cbn; [reflexivity |].
  now rewrite Ascii.eqb_refl, IH.
Qed.

(** A disagreement inside [v] rules a match out, whatever follows. *)
Lemma differs_starts_with (p v : string) :
  differs p v = true -> forall r, starts_with p (v ++ r) = false.
Proof.
  revert v. induction p as [| a p IH]; intros [| b v]; cbn; try discriminate.
  intros H r. destruct (Ascii.eqb a b); cbn in *; [now apply IH | reflexivity].
Qed.

Lemma replace_from_clear (old new u : string) :
  clear old u = true ->
  forall r, replace_from old new O (u ++ r) = (u ++ replace_from old new O r)%string.
Proof.
  induction u as [| c u IH]; intros H r; [reflexivity |].
  cbn [clear] in H. apply andb_prop in H. destruct H as [Hd Hc].
  change (String c u ++ r)%string with (String c (u ++ r)).
  cbn [replace_from].
  change (String c (u ++ r)) with (String c u ++ r)%string.
  rewrite (differs_starts_with _ _ Hd r). cbn [append]. now rewrite IH.
Qed.

Lemma replace_from_clear_all (old new u : string) :
  clear old u = true -> replace old new u = u.
Proof.
  intros H. unfold replace. rewrite <- (append_nil u) at 1.
  rewrite (replace_from_clear old new u H ""). cbn. apply append_nil.
Qed.

(** The characters of a match still to be dropped are dropped. *)
Lemma replace_from_skip (old new v r : string) :
  replace_from old new (String.length v) (v ++ r) = replace_from old new O r.
Proof.
  induction v as [| c v IH]; cbn [String.length append].
  - destruct r; reflexivity.
  - cbn [replace_from]. exact IH.
Qed.

(** At an occurrence, the new text comes out and the scan goes on after
    the occurrence. *)
Lemma replace_from_match (c : ascii) (old' new r : string) :
  replace_from (String c old') new O (String c old' ++ r) =
    (new ++ replace_from (String c old') new O r)%string.
Proof.
  change (String c old' ++ r)%string with (String c (old' ++ r)).
  cbn [replace_from].
  change (String c (old' ++ r)) with (String c old' ++ r)%string.
  rewrite starts_with_app. cbn [String.length Nat.pred].
  now rewrite replace_from_skip.
Qed.

(** A match that starts in [u] and is followed by a character foreign to
    the pattern lies within [u]. *)
Lemma starts_with_before_foreign (p u : string) (c : ascii) (r : string) :
  mem_char c p = false ->
  starts_with p (u ++ String c r) = true -> starts_with p u = true.
Proof.
  revert u. induction p as [| a p IH]; intros u Hm H; [reflexivity |].
  cbn [mem_char] in Hm. apply orb_false_elim in Hm. destruct Hm as [Hca Hm].
  destruct u as [| b u]; cbn [append starts_with] in *.
  - rewrite Ascii.eqb_sym, Hca in H. discriminate.
  - apply andb_prop in H. destruct H as [Hab H].
    rewrite Hab. cbn. now apply IH.
Qed.

Lemma contains_cons (p : string) (b : ascii) (u : string) :
  contains p (String b u) = false ->
  starts_with p (String b u) = false /\ contains p u = false.
Proof.
  cbn [contains]. intros H. apply orb_false_elim in H. exact H.
Qed.

(** A text without the pattern, followed by a character foreign to the
    pattern, passes through. *)
Lemma replace_from_free (old new u : string) (c : ascii) (r : string) :
  contains old u = false ->
  mem_char c old = false ->
  replace_from old new O (u ++ String c r) =
    (u ++ replace_from old new O (String c r))%string.
Proof.
  intros Hc Hm. induction u as [| b u IH]; [reflexivity |].
  apply contains_cons in Hc. destruct Hc as [Hs Hc].
  change (String b u ++ String c r)%string with (String b (u ++ String c r)).
  cbn [replace_from].
  change (String b (u ++ String c r)) with (String b u ++ String c r)%string.
  destruct (starts_with old (String b u ++ String c r)) eqn:E.
  - apply (starts_with_before_foreign _ _ _ _ Hm) in E. congruence.
  - cbn [append]. now rewrite (IH Hc).
Qed.

End TextFacts.

(** * The reference parser reads what [isoformat] prints *)

Module DatetimeFacts.
Import Text Datetime.
Import TextFacts.

Lemma digit_val_digit (a : Z) : 0 <= a <= 9 -> digit_val (digit a) = Some a.
Proof.
  intros H.
  assert (a = 0 \/ a = 1 \/ a = 2 \/ a = 3 \/ a = 4 \/
          a = 5 \/ a = 6 \/ a = 7 \/ a = 8 \/ a = 9) as Hc by lia.
  repeat (destruct Hc as [-> | Hc]; [reflexivity |]). subst a. reflexivity.
Qed.

Ltac divmod := Z.to_euclidean_division_equations; lia.

Lemma read2_dec2 (n : Z) (rest : string) :
  0 <= n < 100 -> read2 (dec2 n ++ rest) = Some (n, rest).
Proof.
  intros H. unfold dec2. cbn [append]. unfold read2.
  rewrite (digit_val_digit (n / 10)) by divmod.
  rewrite (digit_val_digit (n mod 10)) by divmod.
  f_equal. f_equal. divmod.
Qed.

Lemma read4_dec4 (n : Z) (rest : string) :
  0 <= n < 10000 -> read4 (dec4 n ++ rest) = Some (n, rest).
Proof.
  intros H. unfold dec4, read4. rewrite append_assoc.
  rewrite read2_dec2 by divmod.
  rewrite read2_dec2 by divmod.
  f_equal. f_equal. divmod.
Qed.

Lemma read6_dec6 (n : Z) (rest : string) :
  0 <= n < 1000000 -> read6 (dec6 n ++ rest) = Some (n, rest).
Proof.
  intros H. unfold dec6, read6. rewrite !append_assoc.
  rewrite read2_dec2 by divmod.
  rewrite read2_dec2 by divmod.
  rewrite read2_dec2 by divmod.
  f_equal. f_equal. divmod.
Qed.

(** The ranges [valid] checks, as inequalities. *)
Lemma valid_ranges (d : datetime) :
  valid d = true ->
  1 <= year d <= 9999 /\ 1 <= month d <= 12 /\
  1 <= day d <= days_in_month (year d) (month d) /\
  0 <= hour d <= 23 /\ 0 <= minute d <= 59 /\ 0 <= second d <= 59 /\
  0 <= microsecond d <= 999999.
Proof.
  unfold valid. intros H.
  repeat (apply andb_prop in H; destruct H as [H ?]).
  repeat match goal with
         | Hb : (_ <=? _) = true |- _ => apply Z.leb_le in Hb
         end.
  lia.
Qed.

Lemma days_in_month_le (y m : Z) : days_in_month y m <= 31.
Proof.
  unfold days_in_month.
  destruct (m =? 2); [destruct (is_leap y); lia |].
  destruct ((m =? 4) || (m =? 6) || (m =? 9) || (m =? 11)); lia.
Qed.

Lemma fromisoformat_core_valid (s : string) (d : datetime) :
  fromisoformat_core s = Some d -> valid d = true.
Proof.
  unfold fromisoformat_core, checked.
  destruct (read_date s) as [[[[y m] dd] s1] |]; [| discriminate].
  destruct s1 as [| c s2].
  - destruct (valid _) eqn:Hv; [| discriminate]. now intros [= <-].
  - destruct (read_time s2) as [[[[[h mi] sec] us] s3] |]; [| discriminate].
    destruct (read_offset s3) as [tz |]; [| discriminate].
    destruct (valid _) eqn:Hv; [| discriminate]. now intros [= <-].
Qed.

Lemma fromisoformat_core_isoformat (d : datetime) :
  valid d = true -> tzinfo d = utc ->
  fromisoformat_core (isoformat d) = Some d.
Proof.
  intros Hv Htz. pose proof (valid_ranges d Hv) as R.
  pose proof (days_in_month_le (year d) (month d)) as Hdim.
  destruct d as [y m dd h mi sec us tz]. cbn [tzinfo] in Htz. subst tz.
  cbn [year month day hour minute second microsecond] in R, Hdim.
  unfold isoformat, fromisoformat_core, read_date.
  cbn [year month day hour minute second microsecond tzinfo].
  rewrite read4_dec4 by lia. cbn [append expect Ascii.eqb Bool.eqb].
  rewrite read2_dec2 by lia. cbn [append expect Ascii.eqb Bool.eqb].
  rewrite read2_dec2 by lia. cbn [append].
  unfold read_time.
  rewrite read2_dec2 by lia. cbn [append expect Ascii.eqb Bool.eqb].
  rewrite read2_dec2 by lia. cbn [append expect Ascii.eqb Bool.eqb].
  rewrite read2_dec2 by lia.
  change (format_offset utc) with "+00:00"%string.
  destruct (Z.eqb_spec us 0) as [-> | Hus].
  - change (read_fraction ("" ++ "+00:00")) with (Some (0, "+00:00"%string)).
    cbv beta iota. change (read_offset "+00:00") with (Some utc).
    unfold checked. rewrite Hv. reflexivity.
  - cbn [append read_fraction]. rewrite read6_dec6 by lia.
    cbv beta iota. change (read_offset "+00:00") with (Some utc).
    unfold checked. rewrite Hv. reflexivity.
Qed.

(** The reference parser is a parser. *)
Lemma core_laws : IsoParserLaws fromisoformat_core.
Proof.
  split.
  - exact fromisoformat_core_valid.
  - exact fromisoformat_core_isoformat.
Qed.

End DatetimeFacts.

(** * Properties of the generated fetcher *)

Module FetcherFacts.
Import Text Json Datetime Fetcher.
Import Prog.

Lemma wall_micros_replace_tzinfo (dt : datetime) (tz : option Z) :
  wall_micros (replace_tzinfo dt tz) = wall_micros dt.
Proof. reflexivity. Qed.

Lemma lookup_some_truthy (k : string) (fields : list (string * json)) (v : json) :
  lookup k fields = Some v -> truthy (JObj fields) = true.
Proof. destruct fields; [discriminate | reflexivity]. Qed.

Section WithParser.
Context {P : IsoParser}.
Variables API_URL API_KEY : string.

(** What [get_cached_credentials] does on a record whose [Expiration]
    parses and whose expiry less five minutes is representable. *)
Lemma get_cached_credentials_parsed
      (fields : list (string * json)) (s : string) (dt : datetime)
      (now : N) (out : list string) (reqs : list request) :
  let st := mkState (Some (Document (JObj fields))) out reqs in
  lookup "Expiration" fields = Some (JStr s) ->
  fromisoformat s = Some dt ->
  minutes 5 <= wall_micros dt ->
  get_cached_credentials now st =
    (Return (if Z.of_N now <? wall_micros dt - minutes 5
             then Some (JObj fields) else None), st).
Proof.
  intros st Hl Hp Hr. subst st.
  unfold get_cached_credentials. cbv [cache_file].
  cbv [bind ret load_cache dict_get]. rewrite Hl.
  cbv [parse_iso]. rewrite Hp.
  cbv [ret sub_timedelta EXPIRATION_THRESHOLD].
  rewrite wall_micros_replace_tzinfo.
  destruct (Z.leb_spec 0 (wall_micros dt - minutes 5)); [| lia].
  destruct (Z.of_N now <? wall_micros dt - minutes 5); reflexivity.
Qed.

(** A record that has not expired is served from the cache. *)
Lemma run_serves_cache
      (fields : list (string * json)) (s : string) (dt : datetime)
      (now : N) (server : reply) :
  lookup "Expiration" fields = Some (JStr s) ->
  fromisoformat s = Some dt ->
  Z.of_N now < wall_micros dt - minutes 5 ->
  run API_URL API_KEY (Some (Document (JObj fields))) now server =
    mkOutcome (mkState (Some (Document (JObj fields)))
                       [dumps (JObj fields)] [])
              0 None.
Proof.
  intros Hl Hp Hlt.
  unfold run, main, cached_or_fetch.
  unfold bind at 1. unfold bind at 1.
  rewrite (get_cached_credentials_parsed fields s dt now [] [] Hl Hp) by lia.
  destruct (Z.ltb_spec (Z.of_N now) (wall_micros dt - minutes 5)); [| lia].
  rewrite (lookup_some_truthy _ _ _ Hl). reflexivity.
Qed.

(** For a value in UTC the instant is the wall clock. *)
Lemma utc_instant_in_utc (dt : datetime) :
  in_utc dt -> utc_instant dt = wall_micros dt.
Proof.
  unfold utc_instant, in_utc, utc. intros [-> | ->]; lia.
Qed.

(** C1, amended. A cache file whose Expiration parses and is in UTC (no
    offset, or the offset +00:00, as in every record the fetcher writes)
    and denotes an instant more than five minutes after the current UTC
    time: the run sends no request, leaves the cache as it is, prints the
    cached record as it stands and ends with status 0. *)
Theorem run_cached_valid
        (fields : list (string * json)) (s : string) (dt : datetime)
        (now : N) (server : reply) :
  lookup "Expiration" fields = Some (JStr s) ->
  fromisoformat s = Some dt ->
  in_utc dt ->
  Z.of_N now < utc_instant dt - minutes 5 ->
  run API_URL API_KEY (Some (Document (JObj fields))) now server =
    mkOutcome (mkState (Some (Document (JObj fields)))
                       [dumps (JObj fields)] [])
              0 None.
Proof.
  intros Hl Hp Hutc Hlt. rewrite (utc_instant_in_utc dt Hutc) in Hlt.
  exact (run_serves_cache fields s dt now server Hl Hp Hlt).
Qed.

Lemma get_cached_credentials_stale (cache : option content) (now : N)
      (out : list string) (reqs : list request) :
  stale cache now ->
  get_cached_credentials now (mkState cache out reqs) =
    (Return None, mkState cache out reqs).
Proof.
  intros [now' | fields s dt now' Hl Hp Hr Hle]; [reflexivity |].
  rewrite (get_cached_credentials_parsed fields s dt now' out reqs Hl Hp Hr).
  destruct (Z.ltb_spec (Z.of_N now') (wall_micros dt - minutes 5)); [lia | reflexivity].
Qed.

(** In a stale state the run is the fetch and, when it returns, the
    print. *)
Lemma main_stale (cache : option content) (now : N) (server : reply) :
  stale cache now ->
  main API_URL API_KEY now server (mkState cache [] []) =
    bind (fetch_new_credentials API_URL API_KEY server)
         (fun credentials => print (dumps credentials))
         (mkState cache [] []).
Proof.
  intros Hs. unfold main, cached_or_fetch.
  unfold bind at 1 2.
  rewrite (get_cached_credentials_stale cache now [] [] Hs).
  unfold bind. reflexivity.
Qed.

(** A failed request: the error line, the request on the log, [exit(1)],
    the cache untouched. *)
Lemma fetch_failed (server : reply) (st : state) :
  failed server ->
  fetch_new_credentials API_URL API_KEY server st =
    (SystemExit 1,
     mkState (cache_file st) (stdout st ++ [dumps error_payload])
             (sent st ++ [the_request API_URL API_KEY])).
Proof.
  intros [| status body Hs]; [reflexivity |].
  cbv [fetch_new_credentials try_except bind requests_get raise_for_status].
  destruct (Z.leb_spec 400 status); [| lia].
  destruct (Z.ltb_spec status 600); [| lia].
  reflexivity.
Qed.

(** A good response: the record with its Expiration rewritten goes to
    the cache and comes back. *)
Lemma fetch_success (status : Z) (fields : list (string * json))
      (s : string) (dt : datetime) (st : state) :
  ~ (400 <= status < 600) ->
  lookup "Expiration" fields = Some (JStr s) ->
  fromisoformat s = Some dt ->
  let record :=
    JObj (store "Expiration" (JStr (isoformat (replace_tzinfo dt utc))) fields) in
  fetch_new_credentials API_URL API_KEY (Response status (Some (JObj fields))) st =
    (Return record,
     mkState (Some (Document record)) (stdout st)
             (sent st ++ [the_request API_URL API_KEY])).
Proof.
  intros Hs Hl Hp record.
  cbv [fetch_new_credentials try_except bind requests_get raise_for_status].
  assert (Hb : (400 <=? status) && (status <? 600) = false).
  { destruct (Z.leb_spec 400 status); destruct (Z.ltb_spec status 600);
      try reflexivity; lia. }
  rewrite Hb.
  cbv [ret response_json getitem]. rewrite Hl.
  cbv [parse_iso]. rewrite Hp. reflexivity.
Qed.

(** Whatever comes back, the fetch sends its one request and no other. *)
Lemma fetch_sends_once (server : reply) (st : state) :
  sent (snd (fetch_new_credentials API_URL API_KEY server st)) =
    (sent st ++ [the_request API_URL API_KEY])%list.
Proof.
  cbv [fetch_new_credentials try_except bind requests_get raise_for_status
       ret raise response_json getitem parse_iso].
  destruct server as [| status body]; [reflexivity |].
  destruct ((400 <=? status) && (status <? 600)); [reflexivity |].
  destruct body as [j |]; [| reflexivity].
  destruct j as [| b | n | s | items | fields]; try reflexivity.
  destruct (lookup "Expiration" fields) as [v |]; [| reflexivity].
  destruct v as [| b | n | s | items | fields']; try reflexivity.
  destruct (fromisoformat s); reflexivity.
Qed.

Lemma run_sent_stale (cache : option content) (now : N) (server : reply) :
  stale cache now ->
  sent (final (run API_URL API_KEY cache now server)) =
    [the_request API_URL API_KEY].
Proof.
  intros Hs. unfold run. rewrite (main_stale cache now server Hs).
  pose proof (fetch_sends_once server (mkState cache [] [])) as Hf.
  unfold bind.
  destruct (fetch_new_credentials API_URL API_KEY server (mkState cache [] []))
    as [[record | e | c] st']; exact Hf.
Qed.



(** C4, amended.  When the fetch is reached and the request fails, with
    no response or with a status from 400 to 599, the run prints one
    line, the JSON object with the one key error, and ends with status 1;
    one request was sent, the cache file is as it was and no credentials
    are printed. *)
Theorem run_fetch_failed (cache : option content) (now : N) (server : reply) :
  stale cache now ->
  failed server ->
  run API_URL API_KEY cache now server =
    mkOutcome (mkState cache [dumps error_payload]
                       [mkRequest API_URL [("api-key", API_KEY)] 5])
              1 None
  /\ dumps error_payload =
       "{" ++ q ++ "error" ++ q ++ ": " ++ q ++ "Failed to fetch credentials" ++ q ++ "}"
  /\ mem_char lf (dumps error_payload) = false.
Proof.
  intros Hs Hf. split; [| split; reflexivity].
  unfold run. rewrite (main_stale cache now server Hs).
  unfold bind. rewrite (fetch_failed server _ Hf). reflexivity.
Qed.

(** C10. A cache file that is there but is not JSON, holds no object, has
    no Expiration, or has one that is no string or does not parse: the
    run dies of an uncaught exception, with nothing on standard output,
    no request sent and the cache file as it was. *)
Theorem run_corrupt_cache (c : content) (e : exn) (now : N) (server : reply) :
  corrupt c e ->
  run API_URL API_KEY (Some c) now server =
    mkOutcome (mkState (Some c) [] []) 1 (Some e).
Proof.
  intros Hc. unfold run, main, cached_or_fetch, get_cached_credentials.
  destruct Hc as [text | j Hj | fields Hl | fields v Hl Hv | fields s Hl Hp].
  - reflexivity.
  - destruct j; try reflexivity. exfalso. exact (Hj _ eq_refl).
  - cbv [bind cache_file load_cache ret dict_get]. rewrite Hl. reflexivity.
  - cbv [bind cache_file load_cache ret dict_get]. rewrite Hl.
    destruct v; try reflexivity. exfalso. exact (Hv _ eq_refl).
  - cbv [bind cache_file load_cache ret dict_get]. rewrite Hl.
    cbv [parse_iso]. rewrite Hp. reflexivity.
Qed.

(** A fetch that returns did so on a good response. *)
Lemma fetch_returns (server : reply) (st st' : state) (record : json) :
  fetch_new_credentials API_URL API_KEY server st = (Return record, st') ->
  exists status fields s dt,
    server = Response status (Some (JObj fields))
    /\ lookup "Expiration" fields = Some (JStr s)
    /\ fromisoformat s = Some dt
    /\ record = JObj (store "Expiration"
                            (JStr (isoformat (replace_tzinfo dt utc))) fields)
    /\ st' = mkState (Some (Document record)) (stdout st)
                     (sent st ++ [the_request API_URL API_KEY]).
Proof.
  cbv [fetch_new_credentials try_except bind requests_get raise_for_status
       ret raise response_json getitem parse_iso].
  destruct server as [| status body]; [discriminate |].
  destruct ((400 <=? status) && (status <? 600)); [discriminate |].
  destruct body as [j |]; [| discriminate].
  destruct j as [| b | n | s | items | fields]; try discriminate.
  destruct (lookup "Expiration" fields) as [v |] eqn:Hl; [| discriminate].
  destruct v as [| b | n | s | items | fields']; try discriminate.
  destruct (fromisoformat s) as [dt |] eqn:Hp; [| discriminate].
  cbv [dump_cache setitem exit print is_request_exception].
  intros [= <- <-]. exists status, fields, s, dt. repeat split; assumption.
Qed.

Lemma lookup_store (k : string) (v : json) (fields : list (string * json)) :
  lookup k (store k v fields) = Some v.
Proof.
  induction fields as [| [k' v'] rest IH]; cbn [store lookup].
  - now rewrite String.eqb_refl.
  - destruct (String.eqb k k') eqn:E; cbn [lookup]; rewrite E; [reflexivity | exact IH].
Qed.

(** Every record a fetch writes carries its Expiration as the
    [isoformat] of a value in UTC. *)
Lemma fetch_writes_utc (server : reply) (st st' : state) (record : json) :
  fetch_new_credentials API_URL API_KEY server st = (Return record, st') ->
  exists fields dt,
    cache_file st' = Some (Document (JObj fields))
    /\ lookup "Expiration" fields = Some (JStr (isoformat dt))
    /\ tzinfo dt = utc.
Proof.
  intros H. destruct (fetch_returns _ _ _ _ H)
    as (status & fields & s & dt & _ & _ & _ & -> & ->).
  eexists _, (replace_tzinfo dt utc). cbn [cache_file].
  split; [reflexivity |]. split; [apply lookup_store | reflexivity].
Qed.

(** Relabelling as UTC keeps the instant of a value that was in UTC, and
    gives a naive value the instant of its wall clock read as UTC. *)
Lemma replace_tzinfo_utc_instant (dt : datetime) :
  instant (replace_tzinfo dt utc) = Some (wall_micros dt)
  /\ (tzinfo dt = utc -> instant dt = instant (replace_tzinfo dt utc)).
Proof.
  unfold instant. change (tzinfo (replace_tzinfo dt utc)) with (Some 0).
  rewrite (wall_micros_replace_tzinfo dt utc).
  split; [f_equal; lia | intros ->; reflexivity].
Qed.

Section RoundTrip.
Context {L : IsoParserLaws P}.

(** C9. A record a successful fetch wrote to the cache has an expiry the
    script reads back, and any run that starts more than five minutes
    before it finds in the cache the very record that was written: it is
    what [get_cached_credentials] returns and what the run prints, with
    no request sent. *)
Theorem cache_round_trip (server : reply) (st st' : state) (record : json) :
  fetch_new_credentials API_URL API_KEY server st = (Return record, st') ->
  cache_file st' = Some (Document record)
  /\ exists t,
      expiry record = Some t
      /\ forall now server',
          Z.of_N now < t - minutes 5 ->
          get_cached_credentials now (mkState (cache_file st') [] []) =
            (Return (Some record), mkState (cache_file st') [] [])
          /\ run API_URL API_KEY (cache_file st') now server' =
               mkOutcome (mkState (Some (Document record)) [dumps record] [])
                         0 None.
Proof.
  intros H. destruct (fetch_returns _ _ _ _ H)
    as (status & fields & s & dt & _ & Hl & Hp & -> & ->).
  cbn [cache_file]. split; [reflexivity |].
  set (dt' := replace_tzinfo dt utc).
  set (fields' := store "Expiration" (JStr (isoformat dt')) fields).
  assert (Hl' : lookup "Expiration" fields' = Some (JStr (isoformat dt')))
    by apply lookup_store.
  assert (Hp' : fromisoformat (isoformat dt') = Some dt').
  { apply fromisoformat_isoformat; [| reflexivity].
    pose proof (fromisoformat_valid _ _ Hp) as Hv.
    unfold valid in *. cbn [dt' replace_tzinfo year month day hour minute
                            second microsecond tzinfo utc].
    destruct (tzinfo dt); rewrite andb_true_iff in Hv |- *;
      destruct Hv as [Hv _]; split; [exact Hv | reflexivity | exact Hv | reflexivity]. }
  exists (wall_micros dt'). split.
  - unfold expiry. rewrite Hl'. cbv beta iota. rewrite Hp'. reflexivity.
  - intros now server' Hlt. split.
    + rewrite (get_cached_credentials_parsed fields' _ dt' now [] [] Hl' Hp') by lia.
      destruct (Z.ltb_spec (Z.of_N now) (wall_micros dt' - minutes 5)); [reflexivity | lia].
    + exact (run_serves_cache fields' _ dt' now server' Hl' Hp' Hlt).
Qed.

End RoundTrip.

End WithParser.

(** *** The theorems on sample worlds, and inputs the specification misjudges *)

Import Samples.

Lemma run_cached_valid_witness :
  fresh_run (Some (Document (record_of "2026-01-01T00:10:00+00:00")))
            new_year_2026 Unreachable =
    mkOutcome (mkState (Some (Document (record_of "2026-01-01T00:10:00+00:00")))
                       [dumps (record_of "2026-01-01T00:10:00+00:00")] [])
              0 None.
Proof.
  apply (run_cached_valid (P := fromisoformat_core) url key _
           "2026-01-01T00:10:00+00:00"
           (mkDatetime 2026 1 1 0 10 0 0 (Some 0))).
  - reflexivity.
  - reflexivity.
  - right. reflexivity.
  - vm_compute. reflexivity.
Defined.

(** C1 as stated fails on an Expiration with an offset other than zero:
    2026-01-01T00:10:00-05:00 is 05:10 UTC, more than five minutes after
    00:06 UTC, yet the script takes the wall clock 00:10 for UTC, finds
    the record stale and goes to the server. *)
Lemma run_offset_expiration_fetches :
  let cache := Some (Document (record_of "2026-01-01T00:10:00-05:00")) in
  let now := (new_year_2026 + 360000000)%N in
  (exists dt,
      fromisoformat_core "2026-01-01T00:10:00-05:00" = Some dt
      /\ Z.of_N now < utc_instant dt - minutes 5)
  /\ fresh_run cache now Unreachable =
       mkOutcome (mkState cache [dumps error_payload]
                          [mkRequest url [("api-key", key)] 5])
                 1 None.
Proof.
  cbv zeta. split; [| reflexivity].
  eexists. split; [reflexivity | vm_compute; reflexivity].
Qed.


(** The same relabelling serves a record that has expired:
    2026-01-01T05:10:00+05:00 is 00:10 UTC, long past at 02:00 UTC, yet
    the script takes the wall clock 05:10 for UTC and prints the cached
    record without a request. *)
Lemma run_offset_expiration_served :
  let cache := Some (Document (record_of "2026-01-01T05:10:00+05:00")) in
  let now := (new_year_2026 + 7200000000)%N in
  (exists dt,
      fromisoformat_core "2026-01-01T05:10:00+05:00" = Some dt
      /\ minutes 5 <= utc_instant dt
      /\ utc_instant dt - minutes 5 <= Z.of_N now)
  /\ fresh_run cache now (Response 200 (Some (record_of "2030-01-01T00:00:00"))) =
       mkOutcome (mkState cache [dumps (record_of "2026-01-01T05:10:00+05:00")] [])
                 0 None.
Proof.
  cbv zeta. split; [| reflexivity].
  eexists. split; [reflexivity |]. split; vm_compute; discriminate.
Qed.


(** C3 fails on the code: a 200 response with no Expiration, or with one
    that does not parse, ends the run in an uncaught [KeyError] or
    [ValueError] with nothing on standard output. *)
Theorem run_bad_expiration_uncaught :
  fresh_run None new_year_2026
            (Response 200 (Some (JObj [("AccessKeyId", JStr "AKIAEXAMPLE")]))) =
    mkOutcome (mkState None [] [mkRequest url [("api-key", key)] 5])
              1 (Some KeyError)
  /\ fresh_run None new_year_2026 (Response 200 (Some (record_of "tomorrow"))) =
       mkOutcome (mkState None [] [mkRequest url [("api-key", key)] 5])
                 1 (Some ValueError).
Proof. split; reflexivity. Qed.

(** C4 as stated fails on a status that is neither 2xx nor an error for
    [raise_for_status]: a 300 response with a record in it is taken as
    a success. *)
Lemma run_status_300_accepted :
  ~ (200 <= 300 < 300)
  /\ fresh_run None new_year_2026
               (Response 300 (Some (record_of "2026-01-01T01:00:00"))) =
       mkOutcome (mkState (Some (Document (record_of "2026-01-01T01:00:00+00:00")))
                          [dumps (record_of "2026-01-01T01:00:00+00:00")]
                          [mkRequest url [("api-key", key)] 5])
                 0 None.
Proof. split; [lia | reflexivity]. Qed.

Lemma run_fetch_failed_witness :
  fresh_run (Some (Document (record_of "2025-12-31T23:00:00"))) new_year_2026
            (Response 503 None) =
    mkOutcome (mkState (Some (Document (record_of "2025-12-31T23:00:00")))
                       [dumps error_payload]
                       [mkRequest url [("api-key", key)] 5])
              1 None.
Proof.
  apply (run_fetch_failed (P := fromisoformat_core) url key).
  - apply (stale_expired _ "2025-12-31T23:00:00"
             (mkDatetime 2025 12 31 23 0 0 0 None)).
    + reflexivity.
    + reflexivity.
    + vm_compute. discriminate.
    + vm_compute. discriminate.
  - apply failed_status. lia.
Defined.

(** C5 fails on the code: an Expiration that comes with an offset other
    than zero is stored with its wall clock relabelled as UTC, which is
    another instant (here five hours later). *)
Theorem fetch_offset_expiration_shifted :
  cache_file (final (fresh_run None new_year_2026
                       (Response 200 (Some (record_of "2030-01-01T00:00:00+05:00"))))) =
    Some (Document (record_of "2030-01-01T00:00:00+00:00"))
  /\ instant_of "2030-01-01T00:00:00+05:00" = Some 64029034800000000
  /\ instant_of "2030-01-01T00:00:00+00:00" =
       Some (64029034800000000 + 5 * 3600 * 1000000).
Proof. repeat split; reflexivity. Qed.

Lemma cache_round_trip_witness :
  let st' := mkState (Some (Document (record_of "2026-01-01T01:00:00+00:00"))) []
                     [mkRequest url [("api-key", key)] 5] in
  cache_file st' = Some (Document (record_of "2026-01-01T01:00:00+00:00"))
  /\ exists t,
      expiry (P := fromisoformat_core) (record_of "2026-01-01T01:00:00+00:00") = Some t
      /\ forall now server',
          Z.of_N now < t - minutes 5 ->
          get_cached_credentials (P := fromisoformat_core) now
                                 (mkState (cache_file st') [] []) =
            (Prog.Return (Some (record_of "2026-01-01T01:00:00+00:00")),
             mkState (cache_file st') [] [])
          /\ fresh_run (cache_file st') now server' =
               mkOutcome (mkState (Some (Document (record_of "2026-01-01T01:00:00+00:00")))
                                  [dumps (record_of "2026-01-01T01:00:00+00:00")] [])
                         0 None.
Proof.
  exact (cache_round_trip (P := fromisoformat_core) (L := DatetimeFacts.core_laws)
           url key (Response 200 (Some (record_of "2026-01-01T01:00:00")))
           (mkState None [] []) _ _ eq_refl).
Defined.

Lemma run_corrupt_cache_witness :
  fresh_run (Some (Document (JObj [("AccessKeyId", JStr "AKIAEXAMPLE")])))
            new_year_2026 Unreachable =
    mkOutcome (mkState (Some (Document (JObj [("AccessKeyId", JStr "AKIAEXAMPLE")])))
                       [] [])
              1 (Some TypeError).
Proof.
  apply (run_corrupt_cache (P := fromisoformat_core) url key).
  apply corrupt_missing. reflexivity.
Defined.

End FetcherFacts.

(** * Properties of the configuration parser *)

Module ConfigFacts.
Import ConfigParser.
Local Open Scope list_scope.

Lemma has_key_In {A} (k : string) (l : list (string * A)) :
  has_key k l = true <-> In k (keys l).
Proof.
  unfold has_key, keys. rewrite existsb_exists, in_map_iff. split.
  - intros [[k' v] [Hin Heq]]. cbn in Heq. apply String.eqb_eq in Heq. subst.
    now exists (k', v).
  - intros [[k' v] [Heq Hin]]. cbn in Heq. subst.
    exists (k, v). split; [assumption | apply String.eqb_refl].
Qed.

Lemma has_key_not_In {A} (k : string) (l : list (string * A)) :
  has_key k l = false <-> ~ In k (keys l).
Proof.
  rewrite <- has_key_In. destruct (has_key k l); split; congruence.
Qed.

Lemma keys_app {A} (l l' : list (string * A)) :
  keys (l ++ l') = (keys l ++ keys l')%list.
Proof. apply map_app. Qed.

Lemma NoDup_snoc {A} (l : list A) (x : A) :
  NoDup l -> ~ In x l -> NoDup (l ++ [x]).
Proof.
  intros Hl Hx. apply NoDup_app; [assumption | |].
  - constructor; [intros [] | constructor].
  - intros a Ha [<- | []]. contradiction.
Qed.

Lemma lower_char_idem (c : ascii) : lower_char (lower_char c) = lower_char c.
Proof. destruct c as [[] [] [] [] [] [] [] []]; reflexivity. Qed.

Lemma optionxform_idem (s : string) : optionxform (optionxform s) = optionxform s.
Proof.
  induction s as [| c s IH]; cbn; [reflexivity |].
  now rewrite lower_char_idem, IH.
Qed.

Lemma options_ok_nil : options_ok [].
Proof. split; constructor. Qed.

Lemma options_ok_snoc (acc : list (string * string)) (k v : string) :
  options_ok acc -> optionxform k = k -> ~ In k (keys acc) ->
  options_ok (acc ++ [(k, v)]).
Proof.
  intros [Hn Hx] Hk Hin. split; rewrite keys_app; cbn.
  - now apply NoDup_snoc.
  - apply Forall_app. split; [assumption | now constructor].
Qed.

(** *** Reading gives a well-formed parser *)

Lemma read_options_ok (sect : string) (lines : list (string * string)) :
  forall acc opts,
    options_ok acc -> read_options sect lines acc = inr opts -> options_ok opts.
Proof.
  induction lines as [| [k v] rest IH]; intros acc opts Hok H; cbn in H.
  - now injection H as <-.
  - destruct (has_key (optionxform k) acc) eqn:E; [discriminate |].
    apply (IH _ _ (options_ok_snoc acc _ v Hok (optionxform_idem k)
                     (proj1 (has_key_not_In _ _) E)) H).
Qed.

Lemma well_formed_empty : well_formed empty.
Proof.
  split; cbn; [apply options_ok_nil | constructor | intros [] | constructor].
Qed.

Lemma read_sections_ok (raw : list (string * list (string * string))) :
  forall cfg cfg',
    well_formed cfg -> read_sections raw cfg = inr cfg' -> well_formed cfg'.
Proof.
  induction raw as [| [name lines] rest IH]; intros cfg cfg' Hwf H; cbn in H.
  - now injection H as <-.
  - destruct Hwf as [Hd Hn Hnd Ho].
    destruct (String.eqb name DEFAULT) eqn:En.
    + destruct (read_options name lines (defaults cfg)) as [er | d] eqn:Er;
        [discriminate |].
      apply (IH _ _) in H; [assumption |].
      split; cbn [sections defaults]; try assumption.
      exact (read_options_ok _ _ _ _ Hd Er).
    + destruct (has_key name (sections cfg)) eqn:Eh; [discriminate |].
      destruct (read_options name lines []) as [er | opts] eqn:Er;
        [discriminate |].
      apply (IH _ _) in H; [assumption |].
      apply has_key_not_In in Eh. apply String.eqb_neq in En.
      split; cbn [sections defaults]; try assumption.
      * rewrite keys_app. now apply NoDup_snoc.
      * rewrite keys_app, in_app_iff. cbn. intuition congruence.
      * apply Forall_app. split; [assumption |]. constructor; [| constructor].
        exact (read_options_ok _ _ _ _ options_ok_nil Er).
Qed.

Lemma read_ok (file : ini) (cfg : config) :
  read file = inr cfg -> well_formed cfg.
Proof.
  destruct file as [| raw]; cbn; [discriminate |].
  apply read_sections_ok, well_formed_empty.
Qed.

(** *** What was written reads back *)

Lemma read_options_all (sect : string) (lines : list (string * string)) :
  forall acc,
    options_ok (acc ++ lines) -> read_options sect lines acc = inr (acc ++ lines).
Proof.
  induction lines as [| [k v] rest IH]; intros acc Hok; cbn [read_options].
  - now rewrite app_nil_r.
  - pose proof Hok as [Hn Hx]. rewrite keys_app in Hn, Hx.
    change (keys ((k, v) :: rest)) with (k :: keys rest) in Hn, Hx.
    pose proof (Forall_elt _ _ _ Hx) as Hk. cbn beta in Hk. rewrite Hk.
    apply NoDup_remove_2 in Hn.
    assert (Hacc : has_key k acc = false).
    { apply has_key_not_In. intros Hin. apply Hn, in_app_iff. now left. }
    rewrite Hacc.
    assert (E : (acc ++ (k, v) :: rest = (acc ++ [(k, v)]) ++ rest)%list)
      by now rewrite <- app_assoc.
    rewrite E. apply IH. rewrite <- E. exact Hok.
Qed.

Lemma read_sections_all (raw : list (string * list (string * string))) :
  forall d secs,
    NoDup (keys (secs ++ raw)) ->
    ~ In DEFAULT (keys raw) ->
    Forall (fun s => options_ok (snd s)) raw ->
    read_sections raw (mkConfig d secs) = inr (mkConfig d (secs ++ raw)).
Proof.
  induction raw as [| [name lines] rest IH]; intros d secs Hn Hd Ho;
    cbn [read_sections defaults sections].
  - now rewrite app_nil_r.
  - assert (En : String.eqb name DEFAULT = false).
    { apply String.eqb_neq. intros ->. apply Hd. now left. }
    rewrite En. pose proof Hn as Hn'. rewrite keys_app in Hn'.
    change (keys ((name, lines) :: rest)) with (name :: keys rest) in Hn'.
    pose proof (NoDup_remove_2 _ _ _ Hn') as Hnew.
    assert (Eh : has_key name secs = false).
    { apply has_key_not_In. intros Hin. apply Hnew, in_app_iff. now left. }
    rewrite Eh. inversion Ho as [| s l Hs Hrest]; subst. cbn [snd] in Hs.
    rewrite (read_options_all name lines [] Hs). cbn [app].
    assert (E : (secs ++ (name, lines) :: rest = (secs ++ [(name, lines)]) ++ rest)%list)
      by now rewrite <- app_assoc.
    rewrite E. apply IH.
    + rewrite <- E. exact Hn.
    + intros Hin. apply Hd. now right.
    + assumption.
Qed.

Lemma read_write (cfg : config) :
  well_formed cfg -> read (write cfg) = inr cfg.
Proof.
  intros [Hd Hn Hnd Ho]. destruct cfg as [d secs]. cbn [defaults sections] in *.
  unfold write, read. cbn [defaults sections].
  destruct d as [| kv d].
  - exact (read_sections_all secs [] [] Hn Hnd Ho).
  - cbn [read_sections]. unfold empty. cbn [defaults sections].
    change (String.eqb DEFAULT DEFAULT) with true. cbv iota.
    rewrite (read_options_all DEFAULT (kv :: d) [] Hd). cbn [app].
    exact (read_sections_all secs (kv :: d) [] Hn Hnd Ho).
Qed.

(** *** The entries under one name *)

Lemma named_absent {A} (k : string) (l : list (string * A)) :
  ~ In k (keys l) -> named k l = [].
Proof.
  induction l as [| [k' v] rest IH]; intros Hin; [reflexivity |].
  cbn [named filter fst]. cbn in Hin.
  destruct (String.eqb_spec k k') as [-> | Hne]; [exfalso; auto |].
  apply IH. auto.
Qed.

Lemma named_present {A} (k : string) (l : list (string * A)) :
  NoDup (keys l) -> In k (keys l) ->
  exists v, named k l = [(k, v)] /\ In (k, v) l.
Proof.
  induction l as [| [k' v] rest IH]; intros Hn Hin; [destruct Hin |].
  cbn in Hn. inversion Hn as [| x xs Hx Hrest]; subst.
  cbn [named filter fst].
  destruct (String.eqb_spec k k') as [-> | Hne].
  - exists v. split; [| now left].
    f_equal. exact (named_absent k' rest Hx).
  - destruct Hin as [Heq | Hin]; [cbn in Heq; congruence |].
    destruct (IH Hrest Hin) as [w [Hw Hiw]]. exists w. split; [exact Hw | now right].
Qed.

Lemma put_keys {A} (k : string) (v : A) (l : list (string * A)) :
  keys (put k v l) = if has_key k l then keys l else (keys l ++ [k])%list.
Proof.
  induction l as [| [k' v'] rest IH]; [reflexivity |].
  cbn [put]. unfold has_key. cbn [existsb fst].
  destruct (String.eqb k k') eqn:E; cbn [orb]; [reflexivity |].
  cbn [keys map fst]. fold (keys (put k v rest)). rewrite IH.
  fold (has_key k rest). destruct (has_key k rest); reflexivity.
Qed.

Lemma named_put {A} (k : string) (v : A) (l : list (string * A)) :
  NoDup (keys l) -> named k (put k v l) = [(k, v)].
Proof.
  induction l as [| [k' v'] rest IH]; intros Hn; cbn [put].
  - cbn. now rewrite String.eqb_refl.
  - cbn in Hn. inversion Hn as [| x xs Hx Hrest]; subst.
    destruct (String.eqb_spec k k') as [-> | Hne].
    + cbn [named filter fst]. rewrite String.eqb_refl. f_equal.
      exact (named_absent k' rest Hx).
    + cbn [named filter fst]. apply String.eqb_neq in Hne. rewrite Hne.
      exact (IH Hrest).
Qed.

Lemma options_ok_put (k v : string) (opts : list (string * string)) :
  optionxform k = k -> options_ok opts -> options_ok (put k v opts).
Proof.
  intros Hk [Hn Hx]. unfold options_ok. rewrite put_keys.
  destruct (has_key k opts) eqn:E; [now split |].
  apply has_key_not_In in E. split.
  - now apply NoDup_snoc.
  - apply Forall_app. split; [assumption | now constructor].
Qed.

(** *** [add_section], [set] and [write] *)

Lemma add_section_well_formed (name : string) (cfg : config) :
  contains_section name cfg = false ->
  well_formed cfg -> well_formed (add_section name cfg).
Proof.
  unfold contains_section. intros H [Hd Hn Hnd Ho].
  apply orb_false_elim in H. destruct H as [Hne Hk].
  apply String.eqb_neq in Hne. apply has_key_not_In in Hk.
  split; cbn [add_section sections defaults]; try assumption.
  - rewrite keys_app. now apply NoDup_snoc.
  - rewrite keys_app, in_app_iff. cbn. intuition congruence.
  - apply Forall_app. split; [assumption |].
    constructor; [apply options_ok_nil | constructor].
Qed.

Lemma add_section_named (name : string) (cfg : config) :
  contains_section name cfg = false ->
  named name (sections (add_section name cfg)) = [(name, [])].
Proof.
  unfold contains_section. intros H.
  apply orb_false_elim in H. destruct H as [_ Hk].
  apply has_key_not_In in Hk.
  cbn [add_section sections]. unfold named. rewrite filter_app.
  fold (named name (sections cfg)). rewrite (named_absent _ _ Hk).
  cbn. now rewrite String.eqb_refl.
Qed.

Section SetOption.
Variables section option value : string.

Lemma set_option_fst (s : string * list (string * string)) :
  fst (set_option section option value s) = fst s.
Proof.
  unfold set_option. destruct (String.eqb section (fst s)); reflexivity.
Qed.

Lemma set_option_keys (l : list (string * list (string * string))) :
  keys (map (set_option section option value) l) = keys l.
Proof.
  unfold keys. rewrite map_map. apply map_ext. exact set_option_fst.
Qed.

Lemma set_option_named (l : list (string * list (string * string))) :
  named section (map (set_option section option value) l) =
    map (set_option section option value) (named section l).
Proof.
  induction l as [| s rest IH]; [reflexivity |].
  cbn [map named filter]. rewrite set_option_fst.
  fold (named section (map (set_option section option value) rest)).
  fold (named section rest).
  destruct (String.eqb section (fst s)); cbn [map]; now rewrite IH.
Qed.

Lemma set_inr (cfg cfg' : config) :
  set section option value cfg = inr cfg' ->
  valid_interpolation value = true
  /\ cfg' = mkConfig (defaults cfg)
                     (map (set_option section option value) (sections cfg)).
Proof.
  unfold set. destruct (valid_interpolation value); [| discriminate].
  intros [= <-]. split; reflexivity.
Qed.

Lemma set_total (cfg : config) :
  valid_interpolation value = true ->
  exists cfg', set section option value cfg = inr cfg'.
Proof. unfold set. intros ->. eauto. Qed.

Lemma set_well_formed (cfg cfg' : config) :
  well_formed cfg -> set section option value cfg = inr cfg' -> well_formed cfg'.
Proof.
  intros [Hd Hn Hnd Ho] H. apply set_inr in H. destruct H as [_ ->].
  split; cbn [sections defaults]; rewrite ?set_option_keys; try assumption.
  apply Forall_map. revert Ho. apply Forall_impl. intros s Hs.
  unfold set_option. destruct (String.eqb section (fst s)); [| exact Hs].
  cbn [snd]. apply options_ok_put; [apply optionxform_idem | exact Hs].
Qed.

Lemma set_named (cfg cfg' : config) (opts : list (string * string)) :
  set section option value cfg = inr cfg' ->
  named section (sections cfg) = [(section, opts)] ->
  named section (sections cfg') =
    [(section, put (optionxform option) value opts)].
Proof.
  intros H Hs. apply set_inr in H. destruct H as [_ ->].
  cbn [sections]. rewrite set_option_named, Hs. cbn [map].
  unfold set_option. cbn [fst snd]. now rewrite String.eqb_refl.
Qed.

End SetOption.

Lemma write_named (name : string) (cfg : config) :
  name <> DEFAULT ->
  exists raw, write cfg = Sections raw /\ named name raw = named name (sections cfg).
Proof.
  intros Hne. unfold write. destruct (defaults cfg) as [| kv d]; eexists; split;
    try reflexivity.
  cbn [named filter fst]. apply String.eqb_neq in Hne. now rewrite Hne.
Qed.

End ConfigFacts.

(** * Properties of the installer *)

Module InstallerFacts.
Import Text Installer.
Import Prog.
Import TextFacts ConfigFacts.
Import Samples.

(** *** The script written *)

Lemma script_template_split :
  script_template =
    (template_head ++ API_URL_PLACEHOLDER ++ template_mid
       ++ API_KEY_PLACEHOLDER ++ template_tail)%string.
Proof. vm_compute. reflexivity. Qed.

Lemma template_mid_quote : template_mid = String dq (drop 1 template_mid).
Proof. vm_compute. reflexivity. Qed.

(** The first pass puts the URL in its place and changes nothing else. *)
Lemma replace_url (api_url : string) :
  replace API_URL_PLACEHOLDER api_url script_template =
    (template_head ++ api_url ++ template_mid
       ++ API_KEY_PLACEHOLDER ++ template_tail)%string.
Proof.
  rewrite script_template_split. unfold replace.
  rewrite replace_from_clear by (vm_compute; reflexivity).
  unfold API_URL_PLACEHOLDER at 1 2. rewrite replace_from_match.
  fold API_URL_PLACEHOLDER.
  change (replace_from ?o ?n O ?t) with (replace o n t).
  rewrite replace_from_clear_all by (vm_compute; reflexivity).
  reflexivity.
Qed.

(** The second pass scans the URL put in by the first: the script is the
    template with both values in place when the URL does not hold the
    key placeholder. *)
Lemma render_substituted (api_url api_key : string) :
  contains API_KEY_PLACEHOLDER api_url = false ->
  render api_url api_key = substituted api_url api_key.
Proof.
  intros Hfree. unfold render, substituted. rewrite replace_url. unfold replace.
  rewrite replace_from_clear by (vm_compute; reflexivity).
  rewrite template_mid_quote at 1. cbn [append].
  rewrite (replace_from_free _ _ api_url dq _ Hfree) by (vm_compute; reflexivity).
  change (String dq (drop 1 template_mid ++ ?t))
    with (String dq (drop 1 template_mid) ++ t)%string.
  rewrite <- template_mid_quote.
  rewrite replace_from_clear by (vm_compute; reflexivity).
  unfold API_KEY_PLACEHOLDER at 1 2. rewrite replace_from_match.
  fold API_KEY_PLACEHOLDER.
  change (replace_from ?o ?n O ?t) with (replace o n t).
  rewrite replace_from_clear_all by (vm_compute; reflexivity).
  reflexivity.
Qed.

(** *** What a run that ends with status 0 has done *)

Lemma executable_lor (mode : Z) : executable (Z.lor mode S_IEXEC) = true.
Proof.
  unfold executable. rewrite Z.lor_spec. apply orb_true_iff. right. reflexivity.
Qed.

Definition aws_path (e : env) : string := join (home e) ".aws".
Definition credentials_path (e : env) : string := join (aws_path e) "credentials".

Lemma falsy_some (v : string) : v <> ""%string -> falsy (Some v) = false.
Proof. intros H. cbn. now apply String.eqb_neq. Qed.

(** [create_temp_creds_script], with both variables set, by cases on
    what stands at [~/.aws] and at the path of the script. *)
Lemma create_temp_creds_script_eq
      (e : env) (d : entry unit) (sc : entry string)
      (cr : entry ConfigParser.ini) (out : list printed)
      (api_url api_key : string) :
  AWS_GET_TEMP_CREDS_API_URL e = Some api_url ->
  AWS_GET_TEMP_CREDS_API_KEY e = Some api_key ->
  api_url <> ""%string -> api_key <> ""%string ->
  create_temp_creds_script e (mkState (mkFs d sc cr) out) =
    match d with
    | File _ _ =>
        (Raise (FileExistsError (aws_path e)), mkState (mkFs d sc cr) out)
    | _ =>
        match write_entry (script_path_of e) (create_mode e) sc
                          (render api_url api_key) with
        | inl ex => (Raise ex, mkState (mkFs Directory sc cr) out)
        | inr w =>
            (Return (script_path_of e),
             mkState (mkFs Directory (chmod_exec w) cr)
                     (out ++ [Line ("✓ Created executable script: "
                                      ++ script_path_of e)]))
        end
    end.
Proof.
  intros Hu Hk Hun Hkn. unfold create_temp_creds_script.
  rewrite Hu, Hk, (falsy_some _ Hun), (falsy_some _ Hkn). cbn [orb value].
  destruct d as [| | m u]; destruct sc as [| | ms old]; reflexivity.
Qed.

(** [update_aws_credentials_config], by cases on what the credentials
    file held. *)
Lemma update_aws_credentials_config_eq
      (e : env) (path : string) (d : entry unit) (sc : entry string)
      (cr : entry ConfigParser.ini) (out : list printed) :
  update_aws_credentials_config e path (mkState (mkFs d sc cr) out) =
    match read_existing cr with
    | inl er => (Raise (ConfigError er), mkState (mkFs d sc cr) out)
    | inr config =>
        match upsert_profile path config with
        | inl er => (Raise (ConfigError er), mkState (mkFs d sc cr) out)
        | inr config' =>
            match write_entry (credentials_path e) (create_mode e) cr
                              (ConfigParser.write config') with
            | inl ex => (Raise ex, mkState (mkFs d sc cr) out)
            | inr w =>
                (Return tt,
                 mkState (mkFs d sc w)
                   ((out ++ [Line ("✓ Updated AWS credentials file: "
                                     ++ credentials_path e)])
                      ++ [Line "✓ Added [temp-creds-session] profile with credential_process"]))
            end
        end
    end.
Proof.
  unfold update_aws_credentials_config.
  cbv [bind get_fs files credentials].
  destruct (read_existing cr) as [er | config]; [reflexivity |].
  cbv [lift_config ret].
  destruct (upsert_profile path config) as [er | config']; [reflexivity |].
  fold (aws_path e). fold (credentials_path e).
  destruct (write_entry (credentials_path e) (create_mode e) cr
                        (ConfigParser.write config')) as [ex | w]; reflexivity.
Qed.

Lemma write_entry_inr {A} (path : string) (create : Z) (old : entry A)
      (data : A) (w : entry A) :
  write_entry path create old data = inr w ->
  exists mode, w = File mode data.
Proof.
  destruct old as [| | mode old]; cbn; intros [= <-]; eauto.
Qed.

Local Opaque render.

(** A run that ends with status 0 found both variables set and not
    empty, read the credentials file, set the profile in it, and left
    the script and the credentials file as files. *)
Lemma run_success_inv (e : env) (f : fs) :
  exit_code (run e f) = 0 ->
  exists api_url api_key config config' ms mc,
    AWS_GET_TEMP_CREDS_API_URL e = Some api_url
    /\ AWS_GET_TEMP_CREDS_API_KEY e = Some api_key
    /\ api_url <> ""%string /\ api_key <> ""%string
    /\ read_existing (credentials f) = inr config
    /\ upsert_profile (script_path_of e) config = inr config'
    /\ files (final (run e f)) =
         mkFs Directory (File ms (render api_url api_key))
              (File mc (ConfigParser.write config'))
    /\ executable ms = true.
Proof.
  destruct f as [d sc cr].
  unfold run, main. cbv [bind print try_except files stdout].
  destruct (AWS_GET_TEMP_CREDS_API_URL e) as [api_url |] eqn:Hu;
    [| unfold create_temp_creds_script; rewrite Hu; cbn; discriminate].
  destruct (AWS_GET_TEMP_CREDS_API_KEY e) as [api_key |] eqn:Hk;
    [| unfold create_temp_creds_script; rewrite Hu, Hk; cbn;
       rewrite orb_true_r; cbn; discriminate].
  destruct (String.eqb_spec api_url "") as [-> | Hun];
    [unfold create_temp_creds_script; rewrite Hu, Hk; cbn; discriminate |].
  destruct (String.eqb_spec api_key "") as [-> | Hkn];
    [unfold create_temp_creds_script; rewrite Hu, Hk; cbn;
     rewrite orb_true_r; cbn; discriminate |].
  rewrite (create_temp_creds_script_eq e d sc cr _ api_url api_key Hu Hk Hun Hkn).
  destruct d as [| | m u]; [| | cbn; discriminate];
    (destruct sc as [| | ms old]; cbn [write_entry chmod_exec];
     [| cbn; discriminate |]);
    rewrite update_aws_credentials_config_eq;
    (destruct (read_existing cr) as [er | config] eqn:Hr; [cbn; discriminate |]);
    (destruct (upsert_profile (script_path_of e) config) as [er | config'] eqn:Hup;
     [cbn; discriminate |]);
    (destruct cr as [| | mc old']; cbn [write_entry]; [| cbn; discriminate |]);
    cbn [exit_code final files]; intros _;
    eexists api_url, api_key, config, config', _, _;
    (repeat split; try eassumption; try reflexivity; try apply executable_lor).
Qed.

(** *** The profile section *)

Lemma profile_not_default : PROFILE <> ConfigParser.DEFAULT.
Proof. discriminate. Qed.

Lemma upsert_profile_valid (path : string) (config config' : ConfigParser.config) :
  upsert_profile path config = inr config' ->
  ConfigParser.valid_interpolation path = true.
Proof. unfold upsert_profile. intros H. now apply set_inr in H. Qed.

Lemma upsert_profile_total (path : string) (config : ConfigParser.config) :
  ConfigParser.valid_interpolation path = true ->
  exists config', upsert_profile path config = inr config'.
Proof. unfold upsert_profile. apply set_total. Qed.

(** After the upsert there is one section of the profile's name, and in
    it one [credential_process], the path given. *)
Lemma upsert_profile_one (path : string) (config config' : ConfigParser.config) :
  ConfigParser.well_formed config ->
  upsert_profile path config = inr config' ->
  ConfigParser.well_formed config'
  /\ exists opts,
      ConfigParser.named PROFILE (ConfigParser.sections config') = [(PROFILE, opts)]
      /\ ConfigParser.named "credential_process" opts =
           [("credential_process"%string, path)].
Proof.
  intros Hwf H. unfold upsert_profile in H.
  destruct (ConfigParser.contains_section PROFILE config) eqn:Hc; cbn [negb] in H.
  - split; [exact (set_well_formed _ _ _ _ _ Hwf H) |].
    unfold ConfigParser.contains_section in Hc.
    change (String.eqb PROFILE ConfigParser.DEFAULT) with false in Hc.
    cbn [orb] in Hc. apply has_key_In in Hc.
    destruct (named_present _ _ (ConfigParser.wf_names _ Hwf) Hc) as [opts [Hn Hin]].
    eexists. split; [exact (set_named _ _ _ _ _ _ H Hn) |].
    apply named_put.
    pose proof (ConfigParser.wf_options _ Hwf) as Ho.
    rewrite Forall_forall in Ho. exact (proj1 (Ho _ Hin)).
  - pose proof (add_section_well_formed _ _ Hc Hwf) as Hwf1.
    split; [exact (set_well_formed _ _ _ _ _ Hwf1 H) |].
    eexists. split; [exact (set_named _ _ _ _ _ _ H (add_section_named _ _ Hc)) |].
    reflexivity.
Qed.

Lemma read_existing_ok (c : entry ConfigParser.ini) (config : ConfigParser.config) :
  read_existing c = inr config -> ConfigParser.well_formed config.
Proof.
  destruct c as [| | mode text]; cbn.
  - intros [= <-]. apply well_formed_empty.
  - intros [= <-]. apply well_formed_empty.
  - apply read_ok.
Qed.

(** The files a run with status 0 leaves: the rendered script,
    executable, and a credentials file with the profile once. *)
Lemma run_success_files (e : env) (f : fs) :
  exit_code (run e f) = 0 ->
  exists api_url api_key config' ms mc,
    AWS_GET_TEMP_CREDS_API_URL e = Some api_url
    /\ AWS_GET_TEMP_CREDS_API_KEY e = Some api_key
    /\ files (final (run e f)) =
         mkFs Directory (File ms (render api_url api_key))
              (File mc (ConfigParser.write config'))
    /\ executable ms = true
    /\ ConfigParser.well_formed config'
    /\ ConfigParser.valid_interpolation (script_path_of e) = true
    /\ exists opts,
        ConfigParser.named PROFILE (ConfigParser.sections config') = [(PROFILE, opts)]
        /\ ConfigParser.named "credential_process" opts =
             [("credential_process"%string, script_path_of e)].
Proof.
  intros H. destruct (run_success_inv e f H)
    as (api_url & api_key & config & config' & ms & mc
        & Hu & Hk & _ & _ & Hr & Hup & Hf & Hx).
  destruct (upsert_profile_one _ _ _ (read_existing_ok _ _ Hr) Hup) as [Hwf Hone].
  exists api_url, api_key, config', ms, mc.
  repeat (split; [assumption |]).
  split; [exact (upsert_profile_valid _ _ _ Hup) | exact Hone].
Qed.

(** A run goes through when both variables are set and not empty,
    [~/.aws] is a directory, the script and the credentials file are
    files that the parser reads, and the path of the script passes
    [set]. *)
Lemma run_succeeds (e : env) (api_url api_key : string)
      (ms mc : Z) (old : string) (config : ConfigParser.config) :
  AWS_GET_TEMP_CREDS_API_URL e = Some api_url ->
  AWS_GET_TEMP_CREDS_API_KEY e = Some api_key ->
  api_url <> ""%string -> api_key <> ""%string ->
  ConfigParser.well_formed config ->
  ConfigParser.valid_interpolation (script_path_of e) = true ->
  exit_code (run e (mkFs Directory (File ms old)
                         (File mc (ConfigParser.write config)))) = 0.
Proof.
  intros Hu Hk Hun Hkn Hwf Hv.
  unfold run, main. cbv [bind print try_except files stdout].
  rewrite (create_temp_creds_script_eq e _ _ _ _ api_url api_key Hu Hk Hun Hkn).
  cbn [write_entry chmod_exec].
  rewrite update_aws_credentials_config_eq.
  cbn [read_existing]. rewrite (read_write _ Hwf).
  destruct (upsert_profile_total _ config Hv) as [config' ->].
  reflexivity.
Qed.

(** *** What the specification says of the installer *)

(** C6. With either variable unset the installer prints the four lines
    that say what to export, ends with status 1, and has touched no
    file. *)
Theorem run_missing_variable (e : env) (f : fs) :
  AWS_GET_TEMP_CREDS_API_URL e = None \/ AWS_GET_TEMP_CREDS_API_KEY e = None ->
  run e f =
    mkOutcome
      (mkState f
         [Line "AWS Temporary Credentials Setup";
          Line "===================================";
          Line "ERROR: Required environment variables not set!";
          Line "Please set the following environment variables:";
          Line "  export AWS_GET_TEMP_CREDS_API_URL='your-api-url'";
          Line "  export AWS_GET_TEMP_CREDS_API_KEY='your-api-key'"])
      1.
Proof.
  intros H. unfold run, main.
  cbv [bind print try_except create_temp_creds_script files stdout].
  assert (Hf : falsy (AWS_GET_TEMP_CREDS_API_URL e)
               || falsy (AWS_GET_TEMP_CREDS_API_KEY e) = true).
  { destruct H as [-> | ->]; [reflexivity | apply orb_true_r]. }
  rewrite Hf. reflexivity.
Qed.

(** C7, amended. When the URL does not hold the text of the key
    placeholder, a run that ends with status 0 leaves a script that is
    executable and whose content is the template with the URL in the
    place of the URL placeholder and the key in the place of the key
    placeholder. *)
Theorem run_writes_script (e : env) (f : fs) (api_url api_key : string) :
  AWS_GET_TEMP_CREDS_API_URL e = Some api_url ->
  AWS_GET_TEMP_CREDS_API_KEY e = Some api_key ->
  contains API_KEY_PLACEHOLDER api_url = false ->
  exit_code (run e f) = 0 ->
  exists mode,
    script (files (final (run e f))) = File mode (substituted api_url api_key)
    /\ executable mode = true.
Proof.
  intros Hu Hk Hfree H.
  destruct (run_success_inv e f H)
    as (u & k & config & config' & ms & mc & Hu' & Hk' & _ & _ & _ & _ & Hf & Hx).
  rewrite Hu in Hu'. rewrite Hk in Hk'. injection Hu' as <-. injection Hk' as <-.
  exists ms. rewrite Hf. cbn [script].
  now rewrite (render_substituted api_url api_key Hfree).
Qed.

(** C8. A second run after a run that ended with status 0, with the same
    home and any two values that are not empty, ends with status 0 too;
    the script then holds the values of the second run, and the
    credentials file has one section of the profile's name, with one
    [credential_process] in it, the path of the script. *)
Theorem rerun_keeps_one_profile
        (h : string) (cm1 cm2 : Z) (url1 key1 url2 key2 : string) (f : fs) :
  let e1 := mkEnv (Some url1) (Some key1) h cm1 in
  let e2 := mkEnv (Some url2) (Some key2) h cm2 in
  exit_code (run e1 f) = 0 ->
  url2 <> ""%string -> key2 <> ""%string ->
  let o2 := run e2 (files (final (run e1 f))) in
  exit_code o2 = 0
  /\ exists ms mc raw opts,
      files (final o2) =
        mkFs Directory (File ms (render url2 key2))
             (File mc (ConfigParser.Sections raw))
      /\ executable ms = true
      /\ ConfigParser.named PROFILE raw = [(PROFILE, opts)]
      /\ ConfigParser.named "credential_process" opts =
           [("credential_process"%string, script_path_of e2)].
Proof.
  intros e1 e2 H1 Hun Hkn o2.
  destruct (run_success_files e1 f H1)
    as (u1 & k1 & config1 & ms1 & mc1 & _ & _ & Hf1 & _ & Hwf1 & Hv1 & _).
  assert (H2 : exit_code o2 = 0).
  { subst o2. rewrite Hf1.
    exact (run_succeeds e2 url2 key2 ms1 mc1 _ config1 eq_refl eq_refl
             Hun Hkn Hwf1 Hv1). }
  split; [exact H2 |].
  destruct (run_success_files e2 _ H2)
    as (u2 & k2 & config2 & ms2 & mc2 & Hu2 & Hk2 & Hf2 & Hx2 & _ & _
        & opts & Hsec & Hopt).
  injection Hu2 as <-. injection Hk2 as <-.
  destruct (write_named PROFILE config2 profile_not_default) as [raw [Hw Hraw]].
  exists ms2, mc2, raw, opts. fold o2 in Hf2. rewrite Hf2, Hw.
  repeat split; try assumption. now rewrite Hraw.
Qed.

Local Transparent render.

(** *** The theorems on sample homes, and an input the specification misjudges *)

Lemma run_missing_variable_witness :
  exit_code (run (mkEnv (Some "https://api.example.org/creds") None "/home/u" 420)
                 clean_home) = 1.
Proof.
  rewrite (run_missing_variable _ clean_home); [reflexivity |].
  right. reflexivity.
Defined.

Lemma run_writes_script_witness :
  exists mode,
    script (files (final (run (mkEnv (Some "https://api.example.org/creds")
                                     (Some "s3cr3t") "/home/u" 420)
                              clean_home))) =
      File mode (substituted "https://api.example.org/creds" "s3cr3t")
    /\ executable mode = true.
Proof.
  apply run_writes_script.
  - reflexivity.
  - reflexivity.
  - vm_compute. reflexivity.
  - vm_compute. reflexivity.
Defined.

(** C7 as stated fails on a URL that holds the key placeholder: the
    second [replace] puts the key into it, and the script names the key
    where the URL belongs. *)
Lemma run_url_holding_key_placeholder :
  let o := run (mkEnv (Some "API_KEY_PLACEHOLDER") (Some "s3cr3t") "/home/u" 420)
               clean_home in
  exit_code o = 0
  /\ script (files (final o)) = File 484 (substituted "s3cr3t" "s3cr3t")
  /\ substituted "s3cr3t" "s3cr3t" <> substituted "API_KEY_PLACEHOLDER" "s3cr3t".
Proof.
  cbv zeta. split; [vm_compute; reflexivity |].
  split; [vm_compute; reflexivity |].
  assert (E : String.eqb (substituted "s3cr3t" "s3cr3t")
                         (substituted "API_KEY_PLACEHOLDER" "s3cr3t") = false)
    by (vm_compute; reflexivity).
  intros Heq. rewrite Heq, String.eqb_refl in E. discriminate.
Qed.

Lemma rerun_keeps_one_profile_witness :
  let e2 := mkEnv (Some "https://api.example.org/v2") (Some "n3w") "/home/u" 420 in
  let o2 :=
    run e2 (files (final (run (mkEnv (Some "https://api.example.org/creds")
                                     (Some "s3cr3t") "/home/u" 420)
                              clean_home))) in
  exit_code o2 = 0
  /\ exists ms mc raw opts,
      files (final o2) =
        mkFs Directory (File ms (render "https://api.example.org/v2" "n3w"))
             (File mc (ConfigParser.Sections raw))
      /\ executable ms = true
      /\ ConfigParser.named PROFILE raw = [(PROFILE, opts)]
      /\ ConfigParser.named "credential_process" opts =
           [("credential_process"%string, script_path_of e2)].
Proof.
  apply (rerun_keeps_one_profile "/home/u" 420 420
           "https://api.example.org/creds" "s3cr3t"
           "https://api.example.org/v2" "n3w" clean_home).
  - vm_compute. reflexivity.
  - discriminate.
  - discriminate.
Defined.

End InstallerFacts.

(** * More on the generated fetcher: every run, whatever the world *)

Module FetcherMore.
Import Text Json Datetime Fetcher.
Import Prog.
Import FetcherFacts.

Section WithParser.
Context {P : IsoParser}.
Variables API_URL API_KEY : string.

(** [get_cached_credentials] never touches the state, and ends in one of
    three ways: nothing to serve, an exception, or a record of the cache
    whose expiry is still more than five minutes off. *)
Lemma get_cached_credentials_cases
      (now : N) (cache : option content)
      (out : list string) (reqs : list request) :
  let st := mkState cache out reqs in
  (stale cache now /\ get_cached_credentials now st = (Return None, st))
  \/ (exists e, get_cached_credentials now st = (Raise e, st))
  \/ (exists fields s dt,
        cache = Some (Document (JObj fields))
        /\ lookup "Expiration" fields = Some (JStr s)
        /\ fromisoformat s = Some dt
        /\ Z.of_N now < wall_micros dt - minutes 5
        /\ get_cached_credentials now st = (Return (Some (JObj fields)), st)).
Proof.
  intros st. subst st. unfold get_cached_credentials. cbv [cache_file].
  destruct cache as [[text | j] |];
    [right; left; eexists; reflexivity | | left; split; [constructor | reflexivity]].
  cbv [bind ret raise load_cache dict_get parse_iso].
  destruct j as [| b | n | s | items | fields];
    try (right; left; eexists; reflexivity).
  destruct (lookup "Expiration" fields) as [v |] eqn:Hl;
    [| right; left; eexists; reflexivity].
  destruct v as [| b | n | s | items | fields'];
    try (right; left; eexists; reflexivity).
  destruct (fromisoformat s) as [dt |] eqn:Hp;
    [| right; left; eexists; reflexivity].
  unfold sub_timedelta, EXPIRATION_THRESHOLD.
  rewrite wall_micros_replace_tzinfo.
  destruct (Z.leb_spec 0 (wall_micros dt - minutes 5));
    [| right; left; eexists; reflexivity].
  destruct (Z.ltb_spec (Z.of_N now) (wall_micros dt - minutes 5)).
  - right; right. exists fields, s, dt. repeat split; assumption.
  - left. split; [| reflexivity].
    apply (stale_expired fields s dt now Hl Hp); lia.
Qed.

(** [fetch_new_credentials] ends in one of three ways, and each time the
    one request is on the log: the record written and returned, the
    error line and [exit(1)], or an exception with nothing printed and
    the cache untouched. *)
Lemma fetch_new_credentials_cases (server : reply) (st : state) :
  (exists status fields s dt,
      server = Response status (Some (JObj fields))
      /\ lookup "Expiration" fields = Some (JStr s)
      /\ fromisoformat s = Some dt
      /\ let record :=
           JObj (store "Expiration"
                       (JStr (isoformat (replace_tzinfo dt utc))) fields) in
         fetch_new_credentials API_URL API_KEY server st =
           (Return record,
            mkState (Some (Document record)) (stdout st)
                    (sent st ++ [the_request API_URL API_KEY])))
  \/ fetch_new_credentials API_URL API_KEY server st =
       (SystemExit 1,
        mkState (cache_file st) (stdout st ++ [dumps error_payload])
                (sent st ++ [the_request API_URL API_KEY]))
  \/ (exists e,
        fetch_new_credentials API_URL API_KEY server st =
          (Raise e,
           mkState (cache_file st) (stdout st)
                   (sent st ++ [the_request API_URL API_KEY]))).
Proof.
  cbv [fetch_new_credentials try_except bind requests_get raise_for_status
       ret raise response_json getitem parse_iso].
  destruct server as [| status body]; [right; left; reflexivity |].
  destruct ((400 <=? status) && (status <? 600)); [right; left; reflexivity |].
  destruct body as [j |]; [| right; left; reflexivity].
  destruct j as [| b | n | s | items | fields];
    try (right; right; eexists; reflexivity).
  destruct (lookup "Expiration" fields) as [v |] eqn:Hl;
    [| right; right; eexists; reflexivity].
  destruct v as [| b | n | s | items | fields'];
    try (right; right; eexists; reflexivity).
  destruct (fromisoformat s) as [dt |] eqn:Hp;
    [| right; right; eexists; reflexivity].
  left. exists status, fields, s, dt. repeat split; assumption.
Qed.

(** The five ways a run can go. *)
Lemma run_cases (cache : option content) (now : N) (server : reply) :
  let o := run API_URL API_KEY cache now server in
  let req := the_request API_URL API_KEY in
  (exists fields s,
      cache = Some (Document (JObj fields))
      /\ lookup "Expiration" fields = Some (JStr s)
      /\ o = mkOutcome (mkState cache [dumps (JObj fields)] []) 0 None)
  \/ (exists e, o = mkOutcome (mkState cache [] []) 1 (Some e))
  \/ o = mkOutcome (mkState cache [dumps error_payload] [req]) 1 None
  \/ (exists e, o = mkOutcome (mkState cache [] [req]) 1 (Some e))
  \/ (exists fields s,
        lookup "Expiration" fields = Some (JStr s)
        /\ o = mkOutcome (mkState (Some (Document (JObj fields)))
                                  [dumps (JObj fields)] [req])
                         0 None).
Proof.
  intros o req. assert (Ho : o = run API_URL API_KEY cache now server) by reflexivity.
  clearbody o. subst req. unfold run, main, cached_or_fetch in Ho.
  unfold bind at 1 in Ho. unfold bind at 1 in Ho.
  destruct (get_cached_credentials_cases now cache [] [])
    as [[_ Hn] | [[e He] | (fields & s & dt & -> & Hl & Hp & Hlt & Hs)]].
  - rewrite Hn in Ho.
    destruct (fetch_new_credentials_cases server (mkState cache [] []))
      as [(status & fields & s & dt & _ & Hl & Hp & Hf) | [Hf | [e Hf]]];
      cbv zeta in Hf; rewrite Hf in Ho; cbv [print] in Ho; subst o.
    + right; right; right; right. eexists _, _.
      split; [apply lookup_store | reflexivity].
    + right; right; left. reflexivity.
    + right; right; right; left. eexists. reflexivity.
  - rewrite He in Ho. subst o. right; left. eexists. reflexivity.
  - rewrite Hs in Ho. rewrite (lookup_some_truthy _ _ _ Hl) in Ho. subst o.
    left. exists fields, s. repeat split; assumption.
Qed.

(** X1. Whatever the cache, the clock and the server, a run sends no
    request or exactly one, and that one is the GET of the configured URL
    with the api-key header and the timeout of 5 seconds. *)
Theorem run_sends_at_most_once (cache : option content) (now : N) (server : reply) :
  sent (final (run API_URL API_KEY cache now server)) = []
  \/ sent (final (run API_URL API_KEY cache now server)) =
       [mkRequest API_URL [("api-key", API_KEY)] 5].
Proof.
  destruct (run_cases cache now server)
    as [(fields & s & _ & _ & ->) | [[e ->] | [-> | [[e ->] | (fields & s & _ & ->)]]]];
    cbn [final sent]; auto.
Qed.

(** X2. The cache file is written only by a run that ends with status
    0 after its one request, and then it holds the very record the run
    prints; every other run leaves the cache file as it found it. *)
Theorem run_cache_written_only_on_success
        (cache : option content) (now : N) (server : reply) :
  let o := run API_URL API_KEY cache now server in
  cache_file (final o) = cache
  \/ (exit_code o = 0
      /\ sent (final o) = [mkRequest API_URL [("api-key", API_KEY)] 5]
      /\ exists fields,
          cache_file (final o) = Some (Document (JObj fields))
          /\ stdout (final o) = [dumps (JObj fields)]).
Proof.
  intros o. subst o.
  destruct (run_cases cache now server)
    as [(fields & s & _ & _ & ->) | [[e ->] | [-> | [[e ->] | (fields & s & _ & ->)]]]];
    cbn [final exit_code cache_file stdout sent]; auto.
  right. repeat split. exists fields. split; reflexivity.
Qed.

(** X3. What a run puts on standard output goes with how it ends: with
    status 0, one line, the dump of an object that has a string under
    Expiration; with [exit(1)], one line, the error object; with an
    uncaught exception (status 1), nothing. *)
Theorem run_output_contract (cache : option content) (now : N) (server : reply) :
  let o := run API_URL API_KEY cache now server in
  (exit_code o = 0 /\ traceback o = None
   /\ exists fields s,
       stdout (final o) = [dumps (JObj fields)]
       /\ lookup "Expiration" fields = Some (JStr s))
  \/ (exit_code o = 1 /\ traceback o = None
      /\ stdout (final o) = [dumps error_payload])
  \/ (exit_code o = 1 /\ stdout (final o) = []
      /\ exists e, traceback o = Some e).
Proof.
  intros o. subst o.
  destruct (run_cases cache now server)
    as [(fields & s & _ & Hl & ->) | [[e ->] | [-> | [[e ->] | (fields & s & Hl & ->)]]]];
    cbn [final exit_code traceback stdout].
  - left. repeat split. eauto.
  - right; right. repeat split. eauto.
  - right; left. repeat split.
  - right; right. repeat split. eauto.
  - left. repeat split. eauto.
Qed.

Lemma lookup_store_other (k k' : string) (v : json) (fields : list (string * json)) :
  k <> k' -> lookup k (store k' v fields) = lookup k fields.
Proof.
  intros Hne. induction fields as [| [k0 v0] rest IH]; cbn [store lookup].
  - apply String.eqb_neq in Hne. now rewrite Hne.
  - destruct (String.eqb_spec k' k0) as [-> | Hk]; cbn [lookup].
    + apply String.eqb_neq in Hne. now rewrite Hne.
    + now rewrite IH.
Qed.

Lemma store_keys (k : string) (v w : json) (fields : list (string * json)) :
  lookup k fields = Some w -> map fst (store k v fields) = map fst fields.
Proof.
  induction fields as [| [k0 v0] rest IH]; cbn [store lookup]; [discriminate |].
  destruct (String.eqb k k0); cbn [map fst]; [reflexivity |].
  intros H. now rewrite (IH H).
Qed.

(** X4. A fetch that returns passes the response through: the record
    it returns is the record it has written to the cache file, and that
    record has the keys of the body in the order of the body, and under
    every key but Expiration the value of the body. *)
Theorem fetch_passes_fields_through
        (server : reply) (st st' : state) (record : json) :
  fetch_new_credentials API_URL API_KEY server st = (Return record, st') ->
  cache_file st' = Some (Document record)
  /\ exists status fields fields',
      server = Response status (Some (JObj fields))
      /\ record = JObj fields'
      /\ map fst fields' = map fst fields
      /\ forall k, k <> "Expiration"%string -> lookup k fields' = lookup k fields.
Proof.
  intros H. destruct (fetch_returns _ _ _ _ _ _ H)
    as (status & fields & s & dt & -> & Hl & _ & -> & ->).
  cbn [cache_file]. split; [reflexivity |].
  eexists status, fields, _. repeat split.
  - exact (store_keys _ _ _ _ Hl).
  - intros k Hk. now apply lookup_store_other.
Qed.

Lemma stale_later (cache : option content) (now now' : N) :
  (now <= now')%N -> stale cache now -> stale cache now'.
Proof.
  intros Hle Hs. destruct Hs as [n | fields s dt n Hl Hp Hr Hn]; [constructor |].
  apply (stale_expired fields s dt now' Hl Hp Hr).
  apply N2Z.inj_le in Hle. eapply Z.le_trans; eassumption.
Qed.

(** X5. Once a run on a cache file has gone to the server, every later
    run on that cache file goes to the server too: a cache that is not
    served at one time is served at no later time. *)
Theorem run_fetches_from_then_on
        (cache : option content) (now now' : N) (server server' : reply) :
  (now <= now')%N ->
  sent (final (run API_URL API_KEY cache now server)) <> [] ->
  sent (final (run API_URL API_KEY cache now' server')) =
    [mkRequest API_URL [("api-key", API_KEY)] 5].
Proof.
  intros Hle Hsent.
  apply (run_sent_stale API_URL API_KEY cache now' server').
  apply (stale_later cache now now' Hle).
  revert Hsent. unfold run, main, cached_or_fetch.
  unfold bind at 1. unfold bind at 1.
  destruct (get_cached_credentials_cases now cache [] [])
    as [[Hst _] | [[e He] | (fields & s & dt & -> & Hl & Hp & Hlt & Hs)]].
  - intros _. exact Hst.
  - rewrite He. cbn. congruence.
  - rewrite Hs, (lookup_some_truthy _ _ _ Hl). cbn. congruence.
Qed.

Lemma store_store (k : string) (v : json) (fields : list (string * json)) :
  store k v (store k v fields) = store k v fields.
Proof.
  induction fields as [| [k0 v0] rest IH]; cbn [store].
  - now rewrite String.eqb_refl.
  - destruct (String.eqb k k0) eqn:E; cbn [store]; rewrite E; [reflexivity |].
    now rewrite IH.
Qed.

Lemma valid_replace_tzinfo_utc (dt : datetime) :
  valid dt = true -> valid (replace_tzinfo dt utc) = true.
Proof.
  unfold valid. cbn [replace_tzinfo year month day hour minute second
                     microsecond tzinfo utc].
  intros Hv. destruct (tzinfo dt); rewrite andb_true_iff in Hv |- *;
    destruct Hv as [Hv _]; split; [exact Hv | reflexivity | exact Hv | reflexivity].
Qed.

Section Normalised.
Context {L : IsoParserLaws P}.

(** X6. Rewriting the Expiration is idempotent: when the server answers
    with a record that an earlier fetch wrote, the fetch writes and
    returns that record as it is. *)
Theorem fetch_of_written_record
        (server : reply) (st st' : state) (record : json)
        (status : Z) (st2 : state) :
  fetch_new_credentials API_URL API_KEY server st = (Return record, st') ->
  ~ (400 <= status < 600) ->
  fetch_new_credentials API_URL API_KEY (Response status (Some record)) st2 =
    (Return record,
     mkState (Some (Document record)) (stdout st2)
             (sent st2 ++ [mkRequest API_URL [("api-key", API_KEY)] 5])).
Proof.
  intros H Hst. destruct (fetch_returns _ _ _ _ _ _ H)
    as (status0 & fields & s & dt & _ & _ & Hp & -> & _).
  set (dt' := replace_tzinfo dt utc).
  assert (Hp' : fromisoformat (isoformat dt') = Some dt').
  { apply fromisoformat_isoformat; [| reflexivity].
    apply valid_replace_tzinfo_utc. exact (fromisoformat_valid _ _ Hp). }
  rewrite (fetch_success API_URL API_KEY status _ _ dt' st2 Hst
             (lookup_store _ _ _) Hp').
  change (replace_tzinfo dt' utc) with dt'.
  now rewrite store_store.
Qed.

(** X7. The fetcher can write a cache file it cannot read again: when
    the server returns an Expiration less than five minutes after
    0001-01-01T00:00:00, the fetch goes through, and every later run on
    the cache file it wrote ends in an uncaught [OverflowError], with
    nothing printed, no request sent and the cache file left in place. *)
Theorem run_after_fetch_of_early_expiry
        (status : Z) (fields : list (string * json)) (s : string)
        (dt : datetime) (st : state) (now : N) (server' : reply) :
  ~ (400 <= status < 600) ->
  lookup "Expiration" fields = Some (JStr s) ->
  fromisoformat s = Some dt ->
  wall_micros dt < minutes 5 ->
  exists record st',
    fetch_new_credentials API_URL API_KEY
      (Response status (Some (JObj fields))) st = (Return record, st')
    /\ cache_file st' = Some (Document record)
    /\ run API_URL API_KEY (cache_file st') now server' =
         mkOutcome (mkState (Some (Document record)) [] []) 1 (Some OverflowError).
Proof.
  intros Hst Hl Hp Hearly.
  eexists _, _. split; [exact (fetch_success API_URL API_KEY status fields s dt st Hst Hl Hp) |].
  cbn [cache_file]. split; [reflexivity |].
  set (dt' := replace_tzinfo dt utc).
  assert (Hp' : fromisoformat (isoformat dt') = Some dt').
  { apply fromisoformat_isoformat; [| reflexivity].
    apply valid_replace_tzinfo_utc. exact (fromisoformat_valid _ _ Hp). }
  unfold run, main, cached_or_fetch, get_cached_credentials.
  cbv [bind cache_file load_cache ret dict_get]. rewrite lookup_store.
  cbv [parse_iso]. rewrite Hp'.
  cbv [ret sub_timedelta EXPIRATION_THRESHOLD].
  rewrite wall_micros_replace_tzinfo. subst dt'.
  rewrite wall_micros_replace_tzinfo.
  destruct (Z.leb_spec 0 (wall_micros dt - minutes 5)); [lia | reflexivity].
Qed.

End Normalised.

End WithParser.

(** *** On sample worlds *)

Import Samples.

Lemma fetch_passes_fields_through_witness :
  cache_file (mkState (Some (Document (record_of "2026-01-01T01:00:00+00:00"))) []
                      [mkRequest url [("api-key", key)] 5]) =
    Some (Document (record_of "2026-01-01T01:00:00+00:00"))
  /\ exists status fields fields',
    Response 200 (Some (record_of "2026-01-01T01:00:00")) =
      Response status (Some (JObj fields))
    /\ record_of "2026-01-01T01:00:00+00:00" = JObj fields'
    /\ map fst fields' = map fst fields
    /\ forall k, k <> "Expiration"%string -> lookup k fields' = lookup k fields.
Proof.
  exact (fetch_passes_fields_through (P := fromisoformat_core) url key
           (Response 200 (Some (record_of "2026-01-01T01:00:00")))
           (mkState None [] []) _ _ eq_refl).
Defined.

Lemma run_fetches_from_then_on_witness :
  sent (final (fresh_run (Some (Document (record_of "2026-01-01T00:04:00")))
                         (new_year_2026 + 1) Unreachable)) =
    [mkRequest url [("api-key", key)] 5].
Proof.
  apply (run_fetches_from_then_on (P := fromisoformat_core) url key
           (Some (Document (record_of "2026-01-01T00:04:00")))
           new_year_2026 (new_year_2026 + 1)
           (Response 200 (Some (record_of "2026-01-01T01:00:00"))) Unreachable).
  - vm_compute. discriminate.
  - vm_compute. discriminate.
Defined.

Lemma run_after_fetch_of_early_expiry_witness :
  exists record st',
    fetch_new_credentials (P := fromisoformat_core) url key
      (Response 200 (Some (record_of "0001-01-01T00:04:59")))
      (mkState None [] []) = (Return record, st')
    /\ cache_file st' = Some (Document record)
    /\ fresh_run (cache_file st') new_year_2026 Unreachable =
         mkOutcome (mkState (Some (Document record)) [] []) 1 (Some OverflowError).
Proof.
  assert (Hst : ~ (400 <= 200 < 600)) by lia.
  apply (run_after_fetch_of_early_expiry (P := fromisoformat_core)
           (L := DatetimeFacts.core_laws) url key 200 _ "0001-01-01T00:04:59"
           (mkDatetime 1 1 1 0 4 59 0 None) (mkState None [] [])
           new_year_2026 Unreachable Hst).
  - reflexivity.
  - reflexivity.
  - vm_compute. reflexivity.
Defined.

Lemma fetch_of_written_record_witness :
  fetch_new_credentials (P := fromisoformat_core) url key
    (Response 201 (Some (record_of "2026-01-01T01:00:00+00:00")))
    (mkState None [] []) =
    (Return (record_of "2026-01-01T01:00:00+00:00"),
     mkState (Some (Document (record_of "2026-01-01T01:00:00+00:00"))) []
             [mkRequest url [("api-key", key)] 5]).
Proof.
  assert (Hst : ~ (400 <= 201 < 600)) by lia.
  exact (fetch_of_written_record (P := fromisoformat_core)
           (L := DatetimeFacts.core_laws) url key
           (Response 200 (Some (record_of "2026-01-01T01:00:00")))
           (mkState None [] []) _ _ 201 (mkState None [] []) eq_refl Hst).
Defined.

End FetcherMore.

(** * More on the installer: every run, whatever the home directory *)

Module InstallerMore.
Import Text Installer.
Import Prog.
Import TextFacts ConfigFacts InstallerFacts.
Import Samples.
Local Open Scope list_scope.

Local Opaque render.

(** A run with both variables set and not empty, step by step: what
    stands at [~/.aws], the write of the script, the read of the
    credentials file, the upsert, the write of the credentials file. *)
Lemma run_eq (e : env) (d : entry unit) (sc : entry string)
      (cr : entry ConfigParser.ini) (api_url api_key : string) :
  AWS_GET_TEMP_CREDS_API_URL e = Some api_url ->
  AWS_GET_TEMP_CREDS_API_KEY e = Some api_key ->
  api_url <> ""%string -> api_key <> ""%string ->
  let banner := [Line "AWS Temporary Credentials Setup"; Line (rule 35)] in
  let created :=
    banner ++ [Line ("✓ Created executable script: " ++ script_path_of e)] in
  run e (mkFs d sc cr) =
    match d with
    | File _ _ =>
        mkOutcome (mkState (mkFs d sc cr)
                           (banner ++ [SetupFailed (FileExistsError (aws_path e))]))
                  1
    | _ =>
        match write_entry (script_path_of e) (create_mode e) sc
                          (render api_url api_key) with
        | inl ex =>
            mkOutcome (mkState (mkFs Directory sc cr) (banner ++ [SetupFailed ex])) 1
        | inr w =>
            let failed ex :=
              mkOutcome (mkState (mkFs Directory (chmod_exec w) cr)
                                 (created ++ [SetupFailed ex]))
                        1 in
            match read_existing cr with
            | inl er => failed (ConfigError er)
            | inr config =>
                match upsert_profile (script_path_of e) config with
                | inl er => failed (ConfigError er)
                | inr config' =>
                    match write_entry (credentials_path e) (create_mode e) cr
                                      (ConfigParser.write config') with
                    | inl ex => failed ex
                    | inr wc =>
                        mkOutcome
                          (mkState (mkFs Directory (chmod_exec w) wc)
                             (created ++
                              [Line ("✓ Updated AWS credentials file: "
                                       ++ credentials_path e);
                               Line "✓ Added [temp-creds-session] profile with credential_process";
                               Line (nl ++ "🎉 Setup completed successfully!");
                               Line (nl ++ "You can now use AWS CLI with:");
                               Line "  aws --profile temp-creds-session <command>";
                               Line (nl ++ "Or set as default profile:");
                               Line "  export AWS_PROFILE=temp-creds-session"]))
                          0
                    end
                end
            end
        end
    end.
Proof.
  intros Hu Hk Hun Hkn banner created. subst banner created.
  unfold run, main. cbv [bind print try_except files stdout].
  rewrite (create_temp_creds_script_eq e d sc cr _ api_url api_key Hu Hk Hun Hkn).
  destruct d as [| | m u]; [| | reflexivity];
    (destruct sc as [| | ms old]; cbn [write_entry chmod_exec];
     [| reflexivity |]);
    rewrite update_aws_credentials_config_eq;
    (destruct (read_existing cr) as [er | config]; [reflexivity |]);
    (destruct (upsert_profile (script_path_of e) config) as [er | config'];
     [reflexivity |]);
    (destruct cr as [| | mc old']; reflexivity).
Qed.

(** With a variable unset or empty the run stops at the check. *)
Lemma run_falsy (e : env) (f : fs) :
  falsy (AWS_GET_TEMP_CREDS_API_URL e) || falsy (AWS_GET_TEMP_CREDS_API_KEY e) = true ->
  run e f =
    mkOutcome
      (mkState f
         [Line "AWS Temporary Credentials Setup";
          Line "===================================";
          Line "ERROR: Required environment variables not set!";
          Line "Please set the following environment variables:";
          Line "  export AWS_GET_TEMP_CREDS_API_URL='your-api-url'";
          Line "  export AWS_GET_TEMP_CREDS_API_KEY='your-api-key'"])
      1.
Proof.
  intros Hf. unfold run, main.
  cbv [bind print try_except create_temp_creds_script files stdout].
  rewrite Hf. reflexivity.
Qed.

(** Either a variable is unset or empty, or both have a value. *)
Lemma env_cases (e : env) :
  falsy (AWS_GET_TEMP_CREDS_API_URL e) || falsy (AWS_GET_TEMP_CREDS_API_KEY e) = true
  \/ exists api_url api_key,
      AWS_GET_TEMP_CREDS_API_URL e = Some api_url
      /\ AWS_GET_TEMP_CREDS_API_KEY e = Some api_key
      /\ api_url <> ""%string /\ api_key <> ""%string.
Proof.
  destruct (AWS_GET_TEMP_CREDS_API_URL e) as [u |]; [| now left].
  destruct (AWS_GET_TEMP_CREDS_API_KEY e) as [k |];
    [| left; apply orb_true_r].
  cbn [falsy].
  destruct (String.eqb_spec u "") as [-> | Hu]; [now left |].
  destruct (String.eqb_spec k "") as [-> | Hk]; [now left |].
  right. exists u, k. repeat split; assumption.
Qed.

(** X8. A variable that is set to the empty string counts as unset: the
    run prints the same four lines, ends with status 1 and touches no
    file. *)
Theorem run_empty_variable (e : env) (f : fs) :
  AWS_GET_TEMP_CREDS_API_URL e = Some ""%string
  \/ AWS_GET_TEMP_CREDS_API_KEY e = Some ""%string ->
  run e f =
    mkOutcome
      (mkState f
         [Line "AWS Temporary Credentials Setup";
          Line "===================================";
          Line "ERROR: Required environment variables not set!";
          Line "Please set the following environment variables:";
          Line "  export AWS_GET_TEMP_CREDS_API_URL='your-api-url'";
          Line "  export AWS_GET_TEMP_CREDS_API_KEY='your-api-key'"])
      1.
Proof.
  intros H. apply run_falsy.
  destruct H as [-> | ->]; [reflexivity | apply orb_true_r].
Qed.

(** X9. The exit status of the installer is 0 or 1, whatever the
    environment and the files. *)
Theorem run_exit_code (e : env) (f : fs) :
  exit_code (run e f) = 0 \/ exit_code (run e f) = 1.
Proof.
  destruct (env_cases e) as [Hf | (u & k & Hu & Hk & Hun & Hkn)].
  - rewrite (run_falsy e f Hf). now right.
  - destruct f as [d sc cr]. rewrite (run_eq e d sc cr u k Hu Hk Hun Hkn).
    cbv zeta.
    destruct d; try (now right);
      (destruct (write_entry _ _ sc _); [now right |]);
      (destruct (read_existing cr); [now right |]);
      (destruct (upsert_profile _ _); [now right |]);
      (destruct (write_entry _ _ cr _); [now right | now left]).
Qed.

(** X10. A run that does not end with status 0 leaves the credentials
    file exactly as it was, whatever else it did. *)
Theorem run_failure_keeps_credentials (e : env) (f : fs) :
  exit_code (run e f) <> 0 ->
  credentials (files (final (run e f))) = credentials f.
Proof.
  destruct (env_cases e) as [Hf | (u & k & Hu & Hk & Hun & Hkn)].
  - rewrite (run_falsy e f Hf). reflexivity.
  - destruct f as [d sc cr]. rewrite (run_eq e d sc cr u k Hu Hk Hun Hkn).
    cbv zeta.
    destruct d; try reflexivity;
      (destruct (write_entry _ _ sc _); [reflexivity |]);
      (destruct (read_existing cr); [reflexivity |]);
      (destruct (upsert_profile _ _); [reflexivity |]);
      (destruct (write_entry _ _ cr _); [reflexivity | cbn; congruence]).
Qed.

(** X11. When [~/.aws] is there but is no directory, the run reports
    the [FileExistsError] of [mkdir], ends with status 1, and has
    changed no file. *)
Theorem run_aws_not_a_directory
        (e : env) (f : fs) (api_url api_key : string) (m : Z) (u : unit) :
  AWS_GET_TEMP_CREDS_API_URL e = Some api_url ->
  AWS_GET_TEMP_CREDS_API_KEY e = Some api_key ->
  api_url <> ""%string -> api_key <> ""%string ->
  aws_dir f = File m u ->
  run e f =
    mkOutcome
      (mkState f
         [Line "AWS Temporary Credentials Setup";
          Line "===================================";
          SetupFailed (FileExistsError (join (home e) ".aws"))])
      1.
Proof.
  intros Hu Hk Hun Hkn Hd. destruct f as [d sc cr]. cbn [aws_dir] in Hd. subst d.
  rewrite (run_eq e _ sc cr api_url api_key Hu Hk Hun Hkn). reflexivity.
Qed.

(** X12. A credentials file the parser rejects stops the run after the
    script was written: status 1, the error reported, the script in
    place and executable, the credentials file as it was. *)
Theorem run_unreadable_credentials
        (e : env) (f : fs) (api_url api_key : string)
        (er : ConfigParser.error) :
  AWS_GET_TEMP_CREDS_API_URL e = Some api_url ->
  AWS_GET_TEMP_CREDS_API_KEY e = Some api_key ->
  api_url <> ""%string -> api_key <> ""%string ->
  (aws_dir f = Absent \/ aws_dir f = Directory) ->
  script f <> Directory ->
  read_existing (credentials f) = inl er ->
  exists mode,
    run e f =
      mkOutcome
        (mkState (mkFs Directory (File mode (render api_url api_key))
                       (credentials f))
           [Line "AWS Temporary Credentials Setup";
            Line "===================================";
            Line ("✓ Created executable script: " ++ script_path_of e);
            SetupFailed (ConfigError er)])
        1
    /\ executable mode = true.
Proof.
  intros Hu Hk Hun Hkn Hd Hsc Hr. destruct f as [d sc cr].
  cbn [aws_dir script credentials] in *.
  rewrite (run_eq e d sc cr api_url api_key Hu Hk Hun Hkn). cbv zeta.
  rewrite Hr.
  destruct Hd as [-> | ->];
    (destruct sc as [| | ms old]; [| congruence |]);
    cbn [write_entry chmod_exec]; eexists; (split; [reflexivity | apply executable_lor]).
Qed.

(** X13. When the installer goes through: exactly when both variables
    have a value that is not empty, [~/.aws] is absent or a directory,
    neither the script nor the credentials file is a directory, the
    credentials file (if there) parses, and the path of the script passes
    the interpolation check of [set]. *)
Theorem run_succeeds_iff (e : env) (f : fs) :
  exit_code (run e f) = 0 <->
  (exists api_url api_key config,
      AWS_GET_TEMP_CREDS_API_URL e = Some api_url
      /\ AWS_GET_TEMP_CREDS_API_KEY e = Some api_key
      /\ api_url <> ""%string /\ api_key <> ""%string
      /\ (aws_dir f = Absent \/ aws_dir f = Directory)
      /\ script f <> Directory
      /\ credentials f <> Directory
      /\ read_existing (credentials f) = inr config
      /\ ConfigParser.valid_interpolation (script_path_of e) = true).
Proof.
  split.
  - destruct (env_cases e) as [Hf | (u & k & Hu & Hk & Hun & Hkn)];
      [rewrite (run_falsy e f Hf); discriminate |].
    destruct f as [d sc cr]. rewrite (run_eq e d sc cr u k Hu Hk Hun Hkn).
    cbv zeta. cbn [aws_dir script credentials].
    destruct d as [| | m x]; [| | discriminate];
      (destruct sc as [| | ms old]; cbn [write_entry]; [| discriminate |]);
      (destruct (read_existing cr) as [er | config] eqn:Hr; [discriminate |]);
      (destruct (upsert_profile (script_path_of e) config) as [er | config'] eqn:Hup;
       [discriminate |]);
      (destruct cr as [| | mc old']; cbn [write_entry]; [| discriminate |]);
      intros _; exists u, k, config;
      repeat (split; [first [assumption | reflexivity | discriminate
                            | now left | now right] |]);
      exact (upsert_profile_valid _ _ _ Hup).
  - intros (u & k & config & Hu & Hk & Hun & Hkn & Hd & Hsc & Hcr & Hr & Hv).
    destruct f as [d sc cr]. cbn [aws_dir script credentials] in *.
    rewrite (run_eq e d sc cr u k Hu Hk Hun Hkn). cbv zeta. rewrite Hr.
    destruct (upsert_profile_total _ config Hv) as [config' ->].
    destruct Hd as [-> | ->];
      (destruct sc as [| | ms old]; [| congruence |]);
      (destruct cr as [| | mc old']; [| congruence |]); reflexivity.
Qed.

(** *** What the upsert leaves alone *)

Lemma named_snoc_other {A} (name other : string) (v : A) (l : list (string * A)) :
  name <> other ->
  ConfigParser.named name (l ++ [(other, v)]) = ConfigParser.named name l.
Proof.
  intros Hne. unfold ConfigParser.named. rewrite filter_app. cbn [filter fst].
  apply String.eqb_neq in Hne. rewrite Hne. apply app_nil_r.
Qed.

Lemma named_set_option_other (name section option value : string)
      (l : list (string * list (string * string))) :
  name <> section ->
  ConfigParser.named name (map (ConfigParser.set_option section option value) l) =
    ConfigParser.named name l.
Proof.
  intros Hne. induction l as [| s rest IH]; [reflexivity |].
  cbn [map ConfigParser.named filter]. rewrite set_option_fst.
  fold (ConfigParser.named name
          (map (ConfigParser.set_option section option value) rest)).
  fold (ConfigParser.named name rest). rewrite IH.
  destruct (String.eqb_spec name (fst s)) as [E | _]; [| reflexivity].
  unfold ConfigParser.set_option.
  destruct (String.eqb_spec section (fst s)) as [E' | _]; [congruence | reflexivity].
Qed.

Lemma named_put_other {A} (k k' : string) (v : A) (l : list (string * A)) :
  k <> k' -> ConfigParser.named k (ConfigParser.put k' v l) = ConfigParser.named k l.
Proof.
  intros Hne. induction l as [| [k0 v0] rest IH]; cbn [ConfigParser.put].
  - cbn. apply String.eqb_neq in Hne. now rewrite Hne.
  - destruct (String.eqb_spec k' k0) as [-> | Hk].
    + cbn [ConfigParser.named filter fst].
      apply String.eqb_neq in Hne. now rewrite Hne.
    + cbn [ConfigParser.named filter fst].
      fold (ConfigParser.named k (ConfigParser.put k' v rest)).
      fold (ConfigParser.named k rest). now rewrite IH.
Qed.

(** The upsert keeps the defaults, every section of another name, and
    in a section of the profile's name every option but
    [credential_process]. *)
Lemma upsert_profile_keeps (path : string) (config config' : ConfigParser.config) :
  upsert_profile path config = inr config' ->
  ConfigParser.defaults config' = ConfigParser.defaults config
  /\ (forall name, name <> PROFILE ->
       ConfigParser.named name (ConfigParser.sections config') =
         ConfigParser.named name (ConfigParser.sections config))
  /\ (forall opts, In (PROFILE, opts) (ConfigParser.sections config) ->
       exists opts',
         In (PROFILE, opts') (ConfigParser.sections config')
         /\ forall k, k <> "credential_process"%string ->
                      ConfigParser.named k opts' = ConfigParser.named k opts).
Proof.
  unfold upsert_profile. intros H. apply set_inr in H. destruct H as [_ ->].
  cbn [ConfigParser.defaults ConfigParser.sections].
  set (config1 := if negb (ConfigParser.contains_section PROFILE config)
                  then ConfigParser.add_section PROFILE config else config).
  assert (Hd : ConfigParser.defaults config1 = ConfigParser.defaults config)
    by (subst config1; destruct (negb _); reflexivity).
  assert (Hs : exists tail,
             ConfigParser.sections config1 = ConfigParser.sections config ++ tail
             /\ (tail = [] \/ tail = [(PROFILE, [])])).
  { subst config1. destruct (negb _).
    - exists [(PROFILE, [])]. split; [reflexivity | now right].
    - exists []. split; [now rewrite app_nil_r | now left]. }
  destruct Hs as (tail & Hs & Htail). rewrite Hd, Hs. split; [reflexivity |]. split.
  - intros name Hne. rewrite (named_set_option_other _ _ _ _ _ Hne).
    destruct Htail as [-> | ->]; [now rewrite app_nil_r |].
    now apply named_snoc_other.
  - intros opts Hin.
    exists (ConfigParser.put (ConfigParser.optionxform "credential_process") path opts).
    split.
    + apply in_map_iff. exists (PROFILE, opts). split.
      * unfold ConfigParser.set_option. cbn [fst snd]. now rewrite String.eqb_refl.
      * apply in_app_iff. now left.
    + intros k Hk. now apply named_put_other.
Qed.

(** X14. A run that goes through keeps what else the credentials file
    held: the file keeps its mode, and read again it has the defaults it
    had, every section of another name as it was, and in the profile's
    own section every option but [credential_process] as it was. *)
Theorem run_keeps_other_profiles
        (e : env) (f : fs) (mode : Z) (text : ConfigParser.ini) :
  exit_code (run e f) = 0 ->
  credentials f = File mode text ->
  exists config config' text',
    ConfigParser.read text = inr config
    /\ credentials (files (final (run e f))) = File mode text'
    /\ ConfigParser.read text' = inr config'
    /\ ConfigParser.defaults config' = ConfigParser.defaults config
    /\ (forall name, name <> PROFILE ->
         ConfigParser.named name (ConfigParser.sections config') =
           ConfigParser.named name (ConfigParser.sections config))
    /\ (forall opts, In (PROFILE, opts) (ConfigParser.sections config) ->
         exists opts',
           In (PROFILE, opts') (ConfigParser.sections config')
           /\ forall k, k <> "credential_process"%string ->
                        ConfigParser.named k opts' = ConfigParser.named k opts).
Proof.
  intros H Hc.
  destruct (env_cases e) as [Hf | (u & k & Hu & Hk & Hun & Hkn)];
    [rewrite (run_falsy e f Hf) in H; discriminate |].
  destruct f as [d sc cr]. cbn [credentials] in Hc. subst cr.
  revert H. rewrite (run_eq e d sc _ u k Hu Hk Hun Hkn). cbv zeta.
  cbn [read_existing].
  destruct d as [| | m x]; [| | discriminate];
    (destruct sc as [| | ms old]; cbn [write_entry]; [| discriminate |]);
    (destruct (ConfigParser.read text) as [er | config] eqn:Hr; [discriminate |]);
    (destruct (upsert_profile (script_path_of e) config) as [er | config'] eqn:Hup;
     [discriminate |]);
    intros _; cbn [final files credentials];
    exists config, config', (ConfigParser.write config');
    (split; [reflexivity |]); (split; [reflexivity |]);
    (split; [apply read_write;
             exact (proj1 (upsert_profile_one _ _ _ (read_ok _ _ Hr) Hup)) |]);
    exact (upsert_profile_keeps _ _ _ Hup).
Qed.

(** X15. The credentials file a run that goes through leaves behind is
    one the strict parser reads: no section twice, no option twice. *)
Theorem run_written_credentials_parse (e : env) (f : fs) :
  exit_code (run e f) = 0 ->
  exists mode text config,
    credentials (files (final (run e f))) = File mode text
    /\ ConfigParser.read text = inr config
    /\ ConfigParser.well_formed config.
Proof.
  intros H. destruct (run_success_files e f H)
    as (u & k & config' & ms & mc & _ & _ & Hf & _ & Hwf & _).
  exists mc, (ConfigParser.write config'), config'. rewrite Hf.
  split; [reflexivity |]. split; [exact (read_write _ Hwf) | exact Hwf].
Qed.

(** *** Running again *)

Lemma put_put {A} (k : string) (v : A) (l : list (string * A)) :
  ConfigParser.put k v (ConfigParser.put k v l) = ConfigParser.put k v l.
Proof.
  induction l as [| [k0 v0] rest IH]; cbn [ConfigParser.put].
  - now rewrite String.eqb_refl.
  - destruct (String.eqb k k0) eqn:E; cbn [ConfigParser.put]; rewrite E;
      [reflexivity | now rewrite IH].
Qed.

Lemma set_option_twice (section option value : string)
      (s : string * list (string * string)) :
  ConfigParser.set_option section option value
    (ConfigParser.set_option section option value s) =
    ConfigParser.set_option section option value s.
Proof.
  unfold ConfigParser.set_option.
  destruct (String.eqb section (fst s)) eqn:E; cbn [fst snd]; rewrite E;
    [now rewrite put_put | reflexivity].
Qed.

(** The upsert of an upserted parser changes nothing. *)
Lemma upsert_profile_twice (path : string) (config config' : ConfigParser.config) :
  ConfigParser.well_formed config ->
  upsert_profile path config = inr config' ->
  upsert_profile path config' = inr config'.
Proof.
  intros Hwf H.
  destruct (upsert_profile_one _ _ _ Hwf H) as [_ (opts & Hn & _)].
  assert (Hc : ConfigParser.contains_section PROFILE config' = true).
  { unfold ConfigParser.contains_section. apply orb_true_iff. right.
    apply has_key_In. unfold ConfigParser.keys. apply in_map_iff.
    exists (PROFILE, opts). split; [reflexivity |].
    assert (Hin : In (PROFILE, opts)
                     (ConfigParser.named PROFILE (ConfigParser.sections config')))
      by (rewrite Hn; now left).
    unfold ConfigParser.named in Hin. apply filter_In in Hin. exact (proj1 Hin). }
  unfold upsert_profile in *. rewrite Hc. cbn [negb].
  pose proof (set_inr _ _ _ _ _ H) as [Hv ->].
  unfold ConfigParser.set. rewrite Hv.
  cbn [ConfigParser.defaults ConfigParser.sections].
  f_equal. f_equal. rewrite map_map. apply map_ext. apply set_option_twice.
Qed.

Lemma lor_exec_executable (mode : Z) :
  executable mode = true -> Z.lor mode S_IEXEC = mode.
Proof.
  unfold executable. intros Hx. apply Z.bits_inj'. intros n Hn.
  rewrite Z.lor_spec. change S_IEXEC with (2 ^ 6).
  rewrite (Z.pow2_bits_eqb 6 n) by lia.
  destruct (Z.eqb_spec 6 n) as [<- | _]; [now rewrite Hx | apply orb_false_r].
Qed.

(** X16. Running the installer again with the same environment changes
    nothing: after a run that went through, a second run leaves the
    directory, the script (content and mode) and the credentials file as
    the first run left them. *)
Theorem run_twice_same_files (e : env) (f : fs) :
  exit_code (run e f) = 0 ->
  files (final (run e (files (final (run e f))))) = files (final (run e f)).
Proof.
  intros H. destruct (run_success_inv e f H)
    as (u & k & config & config' & ms & mc
        & Hu & Hk & Hun & Hkn & Hr & Hup & Hf & Hx).
  rewrite Hf. rewrite (run_eq e _ _ _ u k Hu Hk Hun Hkn). cbv zeta.
  cbn [write_entry chmod_exec read_existing].
  pose proof (read_existing_ok _ _ Hr) as Hwf.
  rewrite (read_write _ (proj1 (upsert_profile_one _ _ _ Hwf Hup))).
  rewrite (upsert_profile_twice _ _ _ Hwf Hup).
  cbn [final files]. now rewrite (lor_exec_executable ms Hx).
Qed.

(** X17. The mode of the script after a run that goes through is the
    mode the file had (or, for a new file, the mode [open] gave it) with
    the owner-execute bit set: no permission bit is cleared, and no other
    bit is set. *)
Theorem run_script_mode (e : env) (f : fs) :
  exit_code (run e f) = 0 ->
  let before := match script f with
                | File mode _ => mode
                | _ => create_mode e
                end in
  exists mode content,
    script (files (final (run e f))) = File mode content
    /\ forall i, 0 <= i ->
                 Z.testbit mode i = Z.testbit before i || (i =? 6).
Proof.
  intros H before.
  destruct (env_cases e) as [Hf | (u & k & Hu & Hk & Hun & Hkn)];
    [rewrite (run_falsy e f Hf) in H; discriminate |].
  destruct f as [d sc cr]. cbn [script] in before.
  revert H. rewrite (run_eq e d sc cr u k Hu Hk Hun Hkn). cbv zeta.
  assert (Hbit : forall m i, 0 <= i ->
                   Z.testbit (Z.lor m S_IEXEC) i = Z.testbit m i || (i =? 6)).
  { intros m i Hi. rewrite Z.lor_spec. change S_IEXEC with (2 ^ 6).
    rewrite (Z.pow2_bits_eqb 6 i) by lia. now rewrite (Z.eqb_sym 6 i). }
  destruct d as [| | m x]; [| | discriminate];
    (destruct sc as [| | ms old]; cbn [write_entry chmod_exec]; [| discriminate |]);
    (destruct (read_existing cr) as [er | config]; [discriminate |]);
    (destruct (upsert_profile (script_path_of e) config) as [er | config'];
     [discriminate |]);
    (destruct cr as [| | mc old']; cbn [write_entry]; [| discriminate |]);
    intros _; cbn [final files script]; eexists _, _;
    (split; [reflexivity | apply Hbit]).
Qed.

(** *** On sample homes *)

Local Transparent render.

Lemma run_empty_variable_witness :
  exit_code (run (mkEnv (Some url) (Some ""%string) "/home/u" 420) used_home) = 1
  /\ files (final (run (mkEnv (Some url) (Some ""%string) "/home/u" 420) used_home)) =
       used_home.
Proof.
  rewrite (run_empty_variable _ used_home); [split; reflexivity |].
  right. reflexivity.
Defined.

Lemma run_failure_keeps_credentials_witness :
  credentials (files (final (run sample_env broken_home))) =
    credentials broken_home.
Proof.
  apply run_failure_keeps_credentials. vm_compute. discriminate.
Defined.

Lemma run_aws_not_a_directory_witness :
  run sample_env blocked_home =
    mkOutcome
      (mkState blocked_home
         [Line "AWS Temporary Credentials Setup";
          Line "===================================";
          SetupFailed (FileExistsError "/home/u/.aws")])
      1.
Proof.
  apply (run_aws_not_a_directory sample_env blocked_home url key 420 tt).
  - reflexivity.
  - reflexivity.
  - discriminate.
  - discriminate.
  - reflexivity.
Defined.

Lemma run_unreadable_credentials_witness :
  exists mode,
    run sample_env broken_home =
      mkOutcome
        (mkState (mkFs Directory (File mode (render url key))
                       (credentials broken_home))
           [Line "AWS Temporary Credentials Setup";
            Line "===================================";
            Line ("✓ Created executable script: " ++ script_path_of sample_env);
            SetupFailed (ConfigError (ConfigParser.DuplicateSectionError "default"))])
        1
    /\ executable mode = true.
Proof.
  apply (run_unreadable_credentials sample_env broken_home url key).
  - reflexivity.
  - reflexivity.
  - discriminate.
  - discriminate.
  - right. reflexivity.
  - discriminate.
  - reflexivity.
Defined.

Lemma run_keeps_other_profiles_witness :
  exists config config' text',
    ConfigParser.read
      (ConfigParser.Sections
         [("DEFAULT", [("output", "json")]);
          ("default", [("aws_access_key_id", "AKIAOLD");
                       ("aws_secret_access_key", "old")]);
          ("temp-creds-session", [("Region", "us-west-2");
                                  ("credential_process", "/old/path")])])%string =
      inr config
    /\ credentials (files (final (run sample_env used_home))) = File 384 text'
    /\ ConfigParser.read text' = inr config'
    /\ ConfigParser.defaults config' = ConfigParser.defaults config
    /\ (forall name, name <> PROFILE ->
         ConfigParser.named name (ConfigParser.sections config') =
           ConfigParser.named name (ConfigParser.sections config))
    /\ (forall opts, In (PROFILE, opts) (ConfigParser.sections config) ->
         exists opts',
           In (PROFILE, opts') (ConfigParser.sections config')
           /\ forall k, k <> "credential_process"%string ->
                        ConfigParser.named k opts' = ConfigParser.named k opts).
Proof.
  apply (run_keeps_other_profiles sample_env used_home).
  - vm_compute. reflexivity.
  - reflexivity.
Defined.

Lemma run_written_credentials_parse_witness :
  exists mode text config,
    credentials (files (final (run sample_env used_home))) = File mode text
    /\ ConfigParser.read text = inr config
    /\ ConfigParser.well_formed config.
Proof.
  apply run_written_credentials_parse. vm_compute. reflexivity.
Defined.

Lemma run_twice_same_files_witness :
  files (final (run sample_env (files (final (run sample_env used_home))))) =
    files (final (run sample_env used_home)).
Proof.
  apply run_twice_same_files. vm_compute. reflexivity.
Defined.

Lemma run_script_mode_witness :
  exists mode content,
    script (files (final (run sample_env used_home))) = File mode content
    /\ forall i, 0 <= i -> Z.testbit mode i = Z.testbit 420 i || (i =? 6).
Proof.
  apply (run_script_mode sample_env used_home). vm_compute. reflexivity.
Defined.

End InstallerMore.
